(** * Notes API: the backend of api-flutter-example

    A shallow embedding of [backend/database.js] (the SQLite data layer)
    and [backend/server.js] (the Express routes and the authentication
    middleware), with the properties of the written specification stated
    and proved (or refuted) over it.

    Conventions of the model.
    - A table is the list of its rows in rowid order; [db.get] returns the
      first matching row of a scan, [db.all] all of them, [db.run] changes
      the table and reports [lastID] or [changes].
    - A promise is a function of the environment (wall clock in seconds, the
      random salt bcrypt draws) and of the database, giving an outcome
      (resolved or rejected) and the database afterwards.
    - A JavaScript string is a [string] whose characters stand for code
      units; a request body field is [None] (absent or null) or [Some s]
      (a JSON string).  Bodies with a field that is a JSON number,
      boolean, array or object are outside the model: where a theorem
      depends on that, its comment says "string fields".
    - A timestamp is the number of seconds since the epoch: SQLite's
      [CURRENT_TIMESTAMP] has a resolution of one second and its text form
      orders like that number.
    - [bcryptjs] and [jsonwebtoken] are libraries, not code of this
      repository: they are taken as interfaces ([Bcrypt], [Jwt]). *)

From Stdlib Require Import ZArith List String Ascii Bool Lia.
From Stdlib Require Import Sorting.Sorted Sorting.Permutation.
Import ListNotations.

Local Open Scope string_scope.
Local Open Scope list_scope.
Local Open Scope Z_scope.

(* ===================================================================== *)
(** ** JavaScript values and built-ins used by the code                   *)
(* ===================================================================== *)

Module JS.

(** A JavaScript number as the code meets it: the result of [parseInt] or
    an integer id.  A number is a double: [Int z] is used for the integers
    a double holds exactly (every integer below 2^53, and beyond it the
    values [round_to_double] returns), [Infinity] for plus or minus
    infinity. *)
Inductive number : Type :=
| NaN : number
| Int : Z -> number
| Infinity (negative : bool) : number.

(** [!s] is true of the empty string, [!undefined] is true. *)
Definition truthy (v : option string) : bool :=
  match v with
  | Some s => negb (s =? "")%string
  | None => false
  end.

(** [v || ''] *)
Definition or_empty (v : option string) : string :=
  match v with
  | Some s => s
  | None => ""
  end.

(** [s.split(sep)] for a one-character separator: never the empty list,
    [''.split(' ')] is [['']]. *)
Fixpoint split (sep : ascii) (s : string) : list string :=
  match s with
  | EmptyString => [""]
  | String c rest =>
      if Ascii.eqb c sep then "" :: split sep rest
      else match split sep rest with
           | seg :: segs => String c seg :: segs
           | [] => [String c ""]
           end
  end.

(** [arr[i]]: [undefined] out of range. *)
Definition index {A : Type} (arr : list A) (i : nat) : option A :=
  nth_error arr i.

(** White space that [parseInt] skips, among the code units below 256. *)
Definition is_white_space (c : ascii) : bool :=
  let n := nat_of_ascii c in
  (Nat.eqb n 9 || Nat.eqb n 10 || Nat.eqb n 11 || Nat.eqb n 12
   || Nat.eqb n 13 || Nat.eqb n 32 || Nat.eqb n 160)%bool.

Fixpoint trim_start (s : string) : string :=
  match s with
  | EmptyString => EmptyString
  | String c rest => if is_white_space c then trim_start rest else s
  end.

(** The value of a digit in the given radix, letters in either case. *)
Definition digit_value (radix : Z) (c : ascii) : option Z :=
  let n := Z.of_nat (nat_of_ascii c) in
  let v :=
    if (48 <=? n) && (n <=? 57) then Some (n - 48)
    else if (97 <=? n) && (n <=? 122) then Some (n - 87)
    else if (65 <=? n) && (n <=? 90) then Some (n - 55)
    else None in
  match v with
  | Some d => if d <? radix then Some d else None
  | None => None
  end.

(** The longest prefix of digits, as a number; [None] when it is empty. *)
Fixpoint parse_digits (radix : Z) (s : string) (acc : option Z) : option Z :=
  match s with
  | EmptyString => acc
  | String c rest =>
      match digit_value radix c with
      | Some d =>
          parse_digits radix rest
            (Some (radix * match acc with Some a => a | None => 0 end + d))
      | None => acc
      end
  end.

(** The integer held by the double nearest to the integer [n >= 0]
    (53 bits of mantissa, ties to the even mantissa); from 2^1024 on the
    double is infinite. *)
Definition round_to_double (n : Z) : Z :=
  if n <? 2 ^ 53 then n
  else
    let e := Z.log2 n - 52 in
    let q := Z.shiftr n e in
    let r := n - Z.shiftl q e in
    let half := Z.shiftl 1 (e - 1) in
    let q' := if (half <? r) || ((r =? half) && Z.odd q) then q + 1 else q in
    Z.shiftl q' e.

(** [parseInt(s)] with no radix: leading white space, a sign, a [0x]
    prefix, then the longest run of digits, read as a double; [NaN] when
    that run is empty. *)
Definition parseInt (s : string) : number :=
  let s1 := trim_start s in
  let '(sign, s2) :=
    match s1 with
    | String "-"%char rest => (-1, rest)
    | String "+"%char rest => (1, rest)
    | _ => (1, s1)
    end in
  let '(radix, s3) :=
    match s2 with
    | String "0"%char (String "x"%char rest) => (16, rest)
    | String "0"%char (String "X"%char rest) => (16, rest)
    | _ => (10, s2)
    end in
  match parse_digits radix s3 None with
  | Some m =>
      let d := round_to_double m in
      if 2 ^ 1024 <=? d then Infinity (sign <? 0) else Int (sign * d)
  | None => NaN
  end.

End JS.

(* ===================================================================== *)
(** ** database.js                                                        *)
(* ===================================================================== *)

(** [bcryptjs]: [hashSync(password, rounds)] draws a random salt, which is
    an argument here; [compareSync(password, hash)]. *)
Class Bcrypt : Type := {
  hashSync : string -> nat -> string -> string;
  compareSync : string -> string -> bool
}.

(** What the library promises: a password matches its own hash. *)
Definition bcrypt_sound `{Bcrypt} : Prop :=
  forall password rounds salt,
    compareSync password (hashSync password rounds salt) = true.

Module Database.

  (** A row of [users]. *)
Record user_row : Type := {
  u_id : Z;
  u_username : string;
  u_password_hash : string;
  u_created_at : Z
}.

(** A row of [notes]. *)
Record note_row : Type := {
  n_id : Z;
  n_user_id : Z;
  n_title : string;
  n_content : string;
  n_tags : string;
  n_created_at : Z;
  n_updated_at : Z
}.

(** The file [notes.db]: both tables and their AUTOINCREMENT counters
    (the largest rowid ever given out). *)
Record Db : Type := {
  users : list user_row;
  notes : list note_row;
  users_seq : Z;
  notes_seq : Z
}.

Definition empty_db : Db :=
  {| users := []; notes := []; users_seq := 0; notes_seq := 0 |}.

(** What a request reads from outside the database. *)
Record Env : Type := {
  clock : Z;
  salt : string
}.

(** The errors a statement of this program can raise. *)
Inductive error : Type :=
| SQLITE_CONSTRAINT : string -> error.

Inductive outcome (A : Type) : Type :=
| Resolved : A -> outcome A
| Rejected : error -> outcome A.
Arguments Resolved {A} _.
Arguments Rejected {A} _.

Definition Promise (A : Type) : Type := Env -> Db -> outcome A * Db.

Definition resolve {A : Type} (a : A) : Promise A :=
  fun _ db => (Resolved a, db).

Definition reject {A : Type} (err : error) : Promise A :=
  fun _ db => (Rejected err, db).

(** [await]: a rejection propagates to the caller. *)
Definition await {A B : Type} (p : Promise A) (k : A -> Promise B)
  : Promise B :=
  fun env db =>
    match p env db with
    | (Resolved a, db') => k a env db'
    | (Rejected err, db') => (Rejected err, db')
    end.

Declare Scope promise_scope.
Delimit Scope promise_scope with promise.
Notation "'let*' x ':=' p 'in' k" := (await p (fun x => k))
  (at level 10, x name, p at level 100, k at level 200) : promise_scope.
Local Open Scope promise_scope.

Definition CURRENT_TIMESTAMP : Promise Z :=
  fun env db => (Resolved (clock env), db).

(** [new Date()], read from the same clock. *)
Definition new_Date : Promise Z :=
  fun env db => (Resolved (clock env), db).

(** How node-sqlite3 binds a number: [NaN] is bound as NULL, and
    [column = NULL] holds of no row; an infinite double equals no
    integer. *)
Definition id_matches (column : Z) (param : JS.number) : bool :=
  match param with
  | JS.Int z => column =? z
  | JS.NaN => false
  | JS.Infinity _ => false
  end.

(** The users and notes a WHERE clause selects. *)
Definition note_where (noteId : JS.number) (userId : Z) (r : note_row)
  : bool :=
  id_matches (n_id r) noteId && (n_user_id r =? userId).

Definition user_where_username (username : string) (r : user_row) : bool :=
  (u_username r =? username)%string.

Definition user_where_id (userId : Z) (r : user_row) : bool :=
  u_id r =? userId.

(** [ORDER BY updated_at DESC]: rows with equal keys keep scan order
    (a row is put in front of the rows, scanned after it, that are not
    newer). *)
Fixpoint insert_desc (r : note_row) (sorted : list note_row)
  : list note_row :=
  match sorted with
  | [] => [r]
  | x :: rest =>
      if n_updated_at x <=? n_updated_at r then r :: sorted
      else x :: insert_desc r rest
  end.

Definition order_by_updated_at_desc (rows : list note_row)
  : list note_row :=
  fold_right insert_desc [] rows.

(** What [createUser] and [verifyUser] resolve to: a user without its
    password hash. *)
Record user : Type := {
  id : Z;
  username : string;
  created_at : Z
}.

Definition without_password (r : user_row) : user :=
  {| id := u_id r; username := u_username r; created_at := u_created_at r |}.

Section WithBcrypt.
Context `{Bcrypt}.

(** [INSERT INTO users (username, password_hash) VALUES (?, ?)]:
    [username] is UNIQUE. *)
Definition insert_user (username passwordHash : string) : Promise Z :=
  fun env db =>
    if existsb (user_where_username username) (users db)
    then (Rejected (SQLITE_CONSTRAINT "UNIQUE constraint failed: users.username"), db)
    else
      let lastID := users_seq db + 1 in
      (Resolved lastID,
       {| users := users db ++
            [ {| u_id := lastID; u_username := username;
                 u_password_hash := passwordHash;
                 u_created_at := clock env |} ];
          notes := notes db;
          users_seq := lastID;
          notes_seq := notes_seq db |}).

Definition createUser (username password : string) : Promise user :=
  fun env =>
    let passwordHash := hashSync password 10 (salt env) in
    (let* lastID := insert_user username passwordHash in
     let* now := CURRENT_TIMESTAMP in
     resolve {| id := lastID; username := username; created_at := now |})
      env.

(** [SELECT * FROM users WHERE username = ?] *)
Definition getUserByUsername (username : string)
  : Promise (option user_row) :=
  fun _ db => (Resolved (find (user_where_username username) (users db)), db).

(** [SELECT id, username, created_at FROM users WHERE id = ?] *)
Definition getUserById (userId : Z) : Promise (option user) :=
  fun _ db =>
    (Resolved (option_map without_password
                 (find (user_where_id userId) (users db))), db).

Definition verifyUser (username password : string)
  : Promise (option user) :=
  let* user := getUserByUsername username in
  match user with
  | None => resolve None
  | Some user =>
      let isValid := compareSync password (u_password_hash user) in
      if isValid then resolve (Some (without_password user))
      else resolve None
  end.

(** [SELECT * FROM notes WHERE user_id = ? ORDER BY updated_at DESC] *)
Definition getNotesByUserId (userId : Z) : Promise (list note_row) :=
  fun _ db =>
    (Resolved (order_by_updated_at_desc
                 (filter (fun r => n_user_id r =? userId) (notes db))), db).

(** [SELECT * FROM notes WHERE id = ? AND user_id = ?] *)
Definition getNoteById (noteId : JS.number) (userId : Z)
  : Promise (option note_row) :=
  fun _ db => (Resolved (find (note_where noteId userId) (notes db)), db).

(** [INSERT INTO notes (user_id, title, content, tags) VALUES (?, ?, ?, ?)]:
    both timestamps default to the statement's CURRENT_TIMESTAMP. *)
Definition insert_note (userId : Z) (title content tags : string)
  : Promise Z :=
  fun env db =>
    let lastID := notes_seq db + 1 in
    (Resolved lastID,
     {| users := users db;
        notes := notes db ++
          [ {| n_id := lastID; n_user_id := userId; n_title := title;
               n_content := content; n_tags := tags;
               n_created_at := clock env; n_updated_at := clock env |} ];
        users_seq := users_seq db;
        notes_seq := lastID |}).

Definition createNote (userId : Z) (title content tags : string)
  : Promise (option note_row) :=
  let* lastID := insert_note userId title content tags in
  let* note := getNoteById (JS.Int lastID) userId in
  resolve note.

(** The SET clause of [updateNote] on one row. *)
Definition set_note (title content tags : string) (now : Z) (r : note_row)
  : note_row :=
  {| n_id := n_id r; n_user_id := n_user_id r; n_title := title;
     n_content := content; n_tags := tags;
     n_created_at := n_created_at r; n_updated_at := now |}.

(** [UPDATE notes SET title = ?, content = ?, tags = ?,
    updated_at = CURRENT_TIMESTAMP WHERE id = ? AND user_id = ?] *)
Definition update_note (title content tags : string)
  (noteId : JS.number) (userId : Z) : Promise unit :=
  fun env db =>
    (Resolved tt,
     {| users := users db;
        notes := map (fun r => if note_where noteId userId r
                               then set_note title content tags (clock env) r
                               else r) (notes db);
        users_seq := users_seq db;
        notes_seq := notes_seq db |}).

Definition updateNote (noteId : JS.number) (userId : Z)
  (title content tags : string) : Promise (option note_row) :=
  let* existingNote := getNoteById noteId userId in
  match existingNote with
  | None => resolve None
  | Some _ =>
      let* _ := update_note title content tags noteId userId in
      let* updatedNote := getNoteById noteId userId in
      resolve updatedNote
  end.

(** [DELETE FROM notes WHERE id = ? AND user_id = ?]: resolves to
    [this.changes], the number of rows removed. *)
Definition delete_note (noteId : JS.number) (userId : Z) : Promise nat :=
  fun _ db =>
    (Resolved (List.length (filter (note_where noteId userId) (notes db))),
     {| users := users db;
        notes := filter (fun r => negb (note_where noteId userId r)) (notes db);
        users_seq := users_seq db;
        notes_seq := notes_seq db |}).

Definition deleteNote (noteId : JS.number) (userId : Z) : Promise bool :=
  let* existingNote := getNoteById noteId userId in
  match existingNote with
  | None => resolve false
  | Some _ =>
      let* changes := delete_note noteId userId in
      resolve (0 <? changes)%nat
  end.

(** [SELECT * FROM users WHERE id = ?] *)
Definition select_user_by_id (userId : Z) : Promise (option user_row) :=
  fun _ db => (Resolved (find (user_where_id userId) (users db)), db).

(** [UPDATE users SET password_hash = ? WHERE id = ?] *)
Definition update_password_hash (newPasswordHash : string) (userId : Z)
  : Promise nat :=
  fun _ db =>
    (Resolved (List.length (filter (user_where_id userId) (users db))),
     {| users := map (fun r => if user_where_id userId r
                               then {| u_id := u_id r;
                                       u_username := u_username r;
                                       u_password_hash := newPasswordHash;
                                       u_created_at := u_created_at r |}
                               else r) (users db);
        notes := notes db;
        users_seq := users_seq db;
        notes_seq := notes_seq db |}).

Definition changePassword (userId : Z) (oldPassword newPassword : string)
  : Promise bool :=
  let* user := select_user_by_id userId in
  match user with
  | None => resolve false
  | Some user =>
      let isValid := compareSync oldPassword (u_password_hash user) in
      if negb isValid then resolve false
      else
        fun env =>
          let newPasswordHash := hashSync newPassword 10 (salt env) in
          (let* changes := update_password_hash newPasswordHash userId in
           resolve (0 <? changes)%nat) env
  end.

(** [DELETE FROM notes WHERE user_id = ?] *)
Definition delete_notes_of (userId : Z) : Promise unit :=
  fun _ db =>
    (Resolved tt,
     {| users := users db;
        notes := filter (fun r => negb (n_user_id r =? userId)) (notes db);
        users_seq := users_seq db;
        notes_seq := notes_seq db |}).

(** [DELETE FROM users WHERE id = ?] *)
Definition delete_user (userId : Z) : Promise nat :=
  fun _ db =>
    (Resolved (List.length (filter (user_where_id userId) (users db))),
     {| users := filter (fun r => negb (user_where_id userId r)) (users db);
        notes := notes db;
        users_seq := users_seq db;
        notes_seq := notes_seq db |}).

Definition deleteUserAccount (userId : Z) (password : string)
  : Promise bool :=
  let* user := select_user_by_id userId in
  match user with
  | None => resolve false
  | Some user =>
      let isValid := compareSync password (u_password_hash user) in
      if negb isValid then resolve false
      else
        let* _ := delete_notes_of userId in
        let* changes := delete_user userId in
        resolve (0 <? changes)%nat
  end.

End WithBcrypt.

End Database.

(* ===================================================================== *)
(** ** server.js                                                          *)
(* ===================================================================== *)

(** What [jwt.sign] is given: [{ id, username }]. *)
Record payload : Type := {
  p_id : Z;
  p_username : string
}.

(** What [jwt.verify] decodes: the payload with the issue and expiry
    instants the library adds. *)
Record claims : Type := {
  c_id : Z;
  c_username : string;
  iat : Z;
  exp : Z
}.

(** [jsonwebtoken]: [sign(payload, secret, { expiresIn })] at an instant,
    [verify(token, secret)] at an instant, [None] for the error the
    callback receives (bad signature, malformed, expired). *)
Class Jwt : Type := {
  sign : payload -> string -> Z -> Z -> string;
  verify : string -> string -> Z -> option claims
}.

(** What the library promises: a token verifies under the key that signed
    it, from its issue until its expiry, to the payload it was made from. *)
Definition jwt_sound `{Jwt} : Prop :=
  forall p secret expiresIn now later,
    now <= later < now + expiresIn ->
    verify (sign p secret expiresIn now) secret later
    = Some {| c_id := p_id p; c_username := p_username p;
              iat := now; exp := now + expiresIn |}.

Module Server.
Import Database.
Local Open Scope promise_scope.

Definition JWT_SECRET : string := "your-secret-key-change-this-in-production".

(** ['24h'] in seconds. *)
Definition expiresIn_24h : Z := 24 * 60 * 60.

(** [req.body]: the fields the routes read, each absent (or null) or a
    JSON string.  The handlers are modelled on these bodies only; what
    they do with a field of another JSON type (a number has no [length],
    bcrypt throws on a password that is not a string) is not modelled. *)
Record body : Type := {
  b_username : option string;
  b_password : option string;
  b_title : option string;
  b_content : option string;
  b_tags : option string;
  b_oldPassword : option string;
  b_newPassword : option string
}.

Record request : Type := {
  headers_authorization : option string;
  params_id : string;
  req_body : body
}.

(** The JSON documents the routes answer with. *)
Inductive json : Type :=
| Error (error : string)
| Auth (message token : string) (user : user)
| NoteList (notes : list note_row) (count : nat)
| Note (message : string) (note : option note_row)
| Message (message : string).

Record response : Type := {
  status : Z;
  json_body : json
}.

(** [res.status(code).json(doc)]; [res.json(doc)] answers 200. *)
Definition res_status_json (code : Z) (doc : json) : Promise response :=
  resolve {| status := code; json_body := doc |}.

Definition res_json (doc : json) : Promise response :=
  res_status_json 200 doc.

(** [try { ... } catch (error) { ... }] around an awaited body. *)
Definition try_catch (block : Promise response)
  (handler : error -> Promise response) : Promise response :=
  fun env db =>
    match block env db with
    | (Rejected err, db') => handler err env db'
    | settled => settled
    end.

Definition internal_server_error (_ : error) : Promise response :=
  res_status_json 500 (Error "Internal server error").

Section WithLibraries.
Context `{Bcrypt} `{Jwt}.

(** [authHeader && authHeader.split(' ')[1]] *)
Definition token_of (authHeader : option string) : option string :=
  if JS.truthy authHeader
  then JS.index (JS.split " "%char (JS.or_empty authHeader)) 1
  else authHeader.

Definition authenticateToken (req : request)
  (next : claims -> Promise response) : Promise response :=
  let authHeader := headers_authorization req in
  let token := token_of authHeader in
  if negb (JS.truthy token)
  then res_status_json 401 (Error "Access token required")
  else
    fun env =>
      match verify (JS.or_empty token) JWT_SECRET (clock env) with
      | None => res_status_json 403 (Error "Invalid or expired token") env
      | Some user => next user env
      end.

(** [jwt.sign({ id, username }, JWT_SECRET, { expiresIn: '24h' })] *)
Definition issue_token (user : user) : Promise string :=
  fun env db =>
    (Resolved (sign {| p_id := id user; p_username := username user |}
                 JWT_SECRET expiresIn_24h (clock env)), db).

(** [POST /api/register] *)
Definition post_register (req : request) : Promise response :=
  try_catch
    (let username := b_username (req_body req) in
     let password := b_password (req_body req) in
     if negb (JS.truthy username) || negb (JS.truthy password)
     then res_status_json 400 (Error "Username and password are required")
     else
       let username := JS.or_empty username in
       let password := JS.or_empty password in
       if (String.length username <? 3)%nat
       then res_status_json 400 (Error "Username must be at least 3 characters")
       else if (String.length password <? 6)%nat
       then res_status_json 400 (Error "Password must be at least 6 characters")
       else
         let* existingUser := getUserByUsername username in
         match existingUser with
         | Some _ => res_status_json 409 (Error "Username already exists")
         | None =>
             let* user := createUser username password in
             let* token := issue_token user in
             res_status_json 201 (Auth "User registered successfully" token user)
         end)
    internal_server_error.

(** [POST /api/login] *)
Definition post_login (req : request) : Promise response :=
  try_catch
    (let username := b_username (req_body req) in
     let password := b_password (req_body req) in
     if negb (JS.truthy username) || negb (JS.truthy password)
     then res_status_json 400 (Error "Username and password are required")
     else
       let* user := verifyUser (JS.or_empty username) (JS.or_empty password) in
       match user with
       | None => res_status_json 401 (Error "Invalid username or password")
       | Some user =>
           let* token := issue_token user in
           res_json (Auth "Login successful" token user)
       end)
    internal_server_error.

(** [GET /api/notes] *)
Definition get_notes (req : request) : Promise response :=
  authenticateToken req (fun req_user =>
    try_catch
      (let* notes := getNotesByUserId (c_id req_user) in
       res_json (NoteList notes (List.length notes)))
      internal_server_error).

(** [POST /api/notes] *)
Definition post_notes (req : request) : Promise response :=
  authenticateToken req (fun req_user =>
    try_catch
      (let title := b_title (req_body req) in
       let content := b_content (req_body req) in
       let tags := b_tags (req_body req) in
       if negb (JS.truthy title) || negb (JS.truthy content)
       then res_status_json 400 (Error "Title and content are required")
       else
         let* note := createNote (c_id req_user) (JS.or_empty title)
                        (JS.or_empty content)
                        (if JS.truthy tags then JS.or_empty tags else "") in
         res_status_json 201 (Note "Note created successfully" note))
      internal_server_error).

(** [PUT /api/notes/:id] *)
Definition put_notes_id (req : request) : Promise response :=
  authenticateToken req (fun req_user =>
    try_catch
      (let noteId := JS.parseInt (params_id req) in
       let title := b_title (req_body req) in
       let content := b_content (req_body req) in
       let tags := b_tags (req_body req) in
       if negb (JS.truthy title) || negb (JS.truthy content)
       then res_status_json 400 (Error "Title and content are required")
       else
         let* updatedNote := updateNote noteId (c_id req_user)
                               (JS.or_empty title) (JS.or_empty content)
                               (if JS.truthy tags then JS.or_empty tags else "") in
         match updatedNote with
         | None => res_status_json 404 (Error "Note not found or unauthorized")
         | Some _ => res_json (Note "Note updated successfully" updatedNote)
         end)
      internal_server_error).

(** [DELETE /api/notes/:id] *)
Definition delete_notes_id (req : request) : Promise response :=
  authenticateToken req (fun req_user =>
    try_catch
      (let noteId := JS.parseInt (params_id req) in
       let* success := deleteNote noteId (c_id req_user) in
       if negb success
       then res_status_json 404 (Error "Note not found or unauthorized")
       else res_json (Message "Note deleted successfully"))
      internal_server_error).

(** [PUT /api/user/password] *)
Definition put_user_password (req : request) : Promise response :=
  authenticateToken req (fun req_user =>
    try_catch
      (let oldPassword := b_oldPassword (req_body req) in
       let newPassword := b_newPassword (req_body req) in
       if negb (JS.truthy oldPassword) || negb (JS.truthy newPassword)
       then res_status_json 400 (Error "Old password and new password are required")
       else
         let oldPassword := JS.or_empty oldPassword in
         let newPassword := JS.or_empty newPassword in
         if (String.length newPassword <? 6)%nat
         then res_status_json 400 (Error "New password must be at least 6 characters")
         else if (oldPassword =? newPassword)%string
         then res_status_json 400
                (Error "New password must be different from old password")
         else
           let* success := changePassword (c_id req_user) oldPassword newPassword in
           if negb success
           then res_status_json 401 (Error "Current password is incorrect")
           else res_json (Message "Password changed successfully"))
      internal_server_error).

(** [DELETE /api/user/account] *)
Definition delete_user_account (req : request) : Promise response :=
  authenticateToken req (fun req_user =>
    try_catch
      (let password := b_password (req_body req) in
       if negb (JS.truthy password)
       then res_status_json 400 (Error "Password is required to delete account")
       else
         let* success := deleteUserAccount (c_id req_user) (JS.or_empty password) in
         if negb success
         then res_status_json 401 (Error "Password is incorrect")
         else res_json (Message "Account deleted successfully"))
      internal_server_error).

(** The routes of the application. *)
Inductive route : Type :=
| POST_api_register
| POST_api_login
| GET_api_notes
| POST_api_notes
| PUT_api_notes_id
| DELETE_api_notes_id
| PUT_api_user_password
| DELETE_api_user_account.

(** The routes registered with [authenticateToken]. *)
Definition protected (r : route) : bool :=
  match r with
  | POST_api_register | POST_api_login => false
  | _ => true
  end.

Definition app (r : route) (req : request) : Promise response :=
  match r with
  | POST_api_register => post_register req
  | POST_api_login => post_login req
  | GET_api_notes => get_notes req
  | POST_api_notes => post_notes req
  | PUT_api_notes_id => put_notes_id req
  | DELETE_api_notes_id => delete_notes_id req
  | PUT_api_user_password => put_user_password req
  | DELETE_api_user_account => delete_user_account req
  end.

End WithLibraries.

End Server.

(* ===================================================================== *)
(** ** Well-formed databases                                              *)
(* ===================================================================== *)

Module Invariant.
Import Database.

(** What the schema and AUTOINCREMENT guarantee of a database the
    application has written: primary keys are unique and were given out
    by the counter, usernames are unique. *)
Record wf_db (db : Db) : Prop := {
  wf_note_ids : NoDup (map n_id (notes db));
  wf_note_seq : Forall (fun r => 1 <= n_id r <= notes_seq db) (notes db);
  wf_user_ids : NoDup (map u_id (users db));
  wf_user_seq : Forall (fun r => 1 <= u_id r <= users_seq db) (users db);
  wf_usernames : NoDup (map u_username (users db));
  wf_seqs : 0 <= users_seq db /\ 0 <= notes_seq db
}.

(** A note that is stored and belongs to the given user. *)
Definition owns (db : Db) (userId : Z) (n : note_row) : Prop :=
  In n (notes db) /\ n_user_id n = userId.

(** No stored note has the given id. *)
Definition no_such_note (db : Db) (noteId : Z) : Prop :=
  forall r, In r (notes db) -> n_id r <> noteId.

(** Newest-updated first. *)
Definition newest_first (a b : note_row) : Prop :=
  n_updated_at b <= n_updated_at a.

End Invariant.

(* ===================================================================== *)
(** ** Reference instances of the library interfaces                      *)
(* ===================================================================== *)

(** Small executable instances of [Bcrypt] and [Jwt] that satisfy
    [bcrypt_sound] and [jwt_sound]: they show the assumptions made of the
    libraries are consistent, and let the theorems be run on examples.
    They make no claim of cryptographic strength. *)
Module Reference.

Definition ref_hashSync (password : string) (rounds : nat) (salt : string)
  : string :=
  "$2a$" ++ password.

Definition ref_compareSync (password hash : string) : bool :=
  (hash =? "$2a$" ++ password)%string.

#[export] Instance ref_bcrypt : Bcrypt :=
  {| hashSync := ref_hashSync; compareSync := ref_compareSync |}.

(** Binary digits of a positive number, least significant first, closed
    by a dot. *)
Fixpoint encode_positive (p : positive) : string :=
  match p with
  | xH => "."
  | xO q => String "0"%char (encode_positive q)
  | xI q => String "1"%char (encode_positive q)
  end.

Definition encode_Z (z : Z) : string :=
  match z with
  | Z0 => "z"
  | Zpos p => String "+"%char (encode_positive p)
  | Zneg p => String "-"%char (encode_positive p)
  end.

Fixpoint decode_positive (s : string) : option (positive * string) :=
  match s with
  | String "."%char rest => Some (xH, rest)
  | String "0"%char rest =>
      match decode_positive rest with
      | Some (q, rest') => Some (xO q, rest')
      | None => None
      end
  | String "1"%char rest =>
      match decode_positive rest with
      | Some (q, rest') => Some (xI q, rest')
      | None => None
      end
  | _ => None
  end.

Definition decode_Z (s : string) : option (Z * string) :=
  match s with
  | String "z"%char rest => Some (0, rest)
  | String "+"%char rest =>
      match decode_positive rest with
      | Some (p, rest') => Some (Zpos p, rest')
      | None => None
      end
  | String "-"%char rest =>
      match decode_positive rest with
      | Some (p, rest') => Some (Zneg p, rest')
      | None => None
      end
  | _ => None
  end.

(** The token is the id, the issue and expiry instants and the username,
    in clear. *)
Definition ref_sign (p : payload) (secret : string) (expiresIn now : Z)
  : string :=
  encode_Z (p_id p) ++ encode_Z now ++ encode_Z (now + expiresIn)
  ++ p_username p.

Definition ref_verify (token secret : string) (now : Z) : option claims :=
  match decode_Z token with
  | Some (i, rest1) =>
      match decode_Z rest1 with
      | Some (issued, rest2) =>
          match decode_Z rest2 with
          | Some (expires, name) =>
              if now <? expires
              then Some {| c_id := i; c_username := name;
                           iat := issued; exp := expires |}
              else None
          | None => None
          end
      | None => None
      end
  | None => None
  end.

#[export] Instance ref_jwt : Jwt :=
  {| sign := ref_sign; verify := ref_verify |}.

End Reference.

(* ===================================================================== *)
(** ** Vocabulary of the specification                                    *)
(* ===================================================================== *)

Module Vocabulary.

(** The character occurs in the string. *)
Fixpoint contains (c : ascii) (s : string) : bool :=
  match s with
  | EmptyString => false
  | String d rest => Ascii.eqb d c || contains c rest
  end.

(** A word of a header value: no space in it. *)
Definition is_word (s : string) : bool := negb (contains " "%char s).

Definition is_decimal_digit (c : ascii) : bool :=
  let n := nat_of_ascii c in (Nat.leb 48 n && Nat.leb n 57)%bool.

Fixpoint all_decimal_digits (s : string) : bool :=
  match s with
  | EmptyString => true
  | String c rest => is_decimal_digit c && all_decimal_digits rest
  end.

(** A numeric path parameter: a decimal numeral, with or without a sign. *)
Definition is_numeric (s : string) : bool :=
  match s with
  | EmptyString => false
  | String "-"%char (String c rest) => all_decimal_digits (String c rest)
  | String "+"%char (String c rest) => all_decimal_digits (String c rest)
  | _ => all_decimal_digits s
  end.

(** The same request with another [Authorization] header. *)
Definition with_authorization (h : option string) (req : Server.request)
  : Server.request :=
  {| Server.headers_authorization := h;
     Server.params_id := Server.params_id req;
     Server.req_body := Server.req_body req |}.

(** The same request with another [:id] path parameter. *)
Definition with_params_id (i : string) (req : Server.request)
  : Server.request :=
  {| Server.headers_authorization := Server.headers_authorization req;
     Server.params_id := i;
     Server.req_body := Server.req_body req |}.

(** The answers of the two ways the request gate turns a request down,
    and of the note routes for a note they do not find. *)
Definition unauthorized_401 : Server.response :=
  {| Server.status := 401;
     Server.json_body := Server.Error "Access token required" |}.

Definition forbidden_403 : Server.response :=
  {| Server.status := 403;
     Server.json_body := Server.Error "Invalid or expired token" |}.

Definition not_found_404 : Server.response :=
  {| Server.status := 404;
     Server.json_body := Server.Error "Note not found or unauthorized" |}.

(** The gate lets the request through as the given identity: a token is
    found in the header and [jwt.verify] decodes it. *)
Definition authenticated_as `{Jwt} (req : Server.request) (env : Database.Env)
  (u : claims) : Prop :=
  JS.truthy (Server.token_of (Server.headers_authorization req)) = true
  /\ verify (JS.or_empty (Server.token_of (Server.headers_authorization req)))
       Server.JWT_SECRET (Database.clock env) = Some u.

(** The databases the application reaches from a fresh [notes.db] by
    serving requests one after the other (requests as [Server.request]
    has them: with string fields). *)
Inductive reachable `{Bcrypt} `{Jwt} : Database.Db -> Prop :=
| reachable_fresh : reachable Database.empty_db
| reachable_served (r : Server.route) (req : Server.request)
    (env : Database.Env) (db : Database.Db) :
    reachable db -> reachable (snd (Server.app r req env db)).

(** The row [POST /api/register] stores for an accepted request, the
    database after it, and the token signed for a user at an instant. *)
Definition registered_row `{Bcrypt} (name password : string)
  (env : Database.Env) (db : Database.Db) : Database.user_row :=
  {| Database.u_id := Database.users_seq db + 1;
     Database.u_username := name;
     Database.u_password_hash := hashSync password 10 (Database.salt env);
     Database.u_created_at := Database.clock env |}.

Definition registered_db `{Bcrypt} (name password : string)
  (env : Database.Env) (db : Database.Db) : Database.Db :=
  {| Database.users := Database.users db ++ [registered_row name password env db];
     Database.notes := Database.notes db;
     Database.users_seq := Database.users_seq db + 1;
     Database.notes_seq := Database.notes_seq db |}.

Definition token_at `{Jwt} (userId : Z) (name : string) (env : Database.Env)
  : string :=
  sign {| p_id := userId; p_username := name |} Server.JWT_SECRET
    Server.expiresIn_24h (Database.clock env).

End Vocabulary.

(* ===================================================================== *)
(** ** A scenario: alice, bob and one note                                *)
(* ===================================================================== *)

(** Concrete requests and databases, over the reference instances of the
    libraries, on which the theorems below are run. *)
Module Scenario.
Import Database Server Reference.

Definition env_at (t : Z) : Env := {| clock := t; salt := "salt" |}.

Definition credentials (u p : string) : body :=
  {| b_username := Some u; b_password := Some p;
     b_title := None; b_content := None; b_tags := None;
     b_oldPassword := None; b_newPassword := None |}.

Definition note_fields (title content tags : option string) : body :=
  {| b_username := None; b_password := None;
     b_title := title; b_content := content; b_tags := tags;
     b_oldPassword := None; b_newPassword := None |}.

Definition no_fields : body := note_fields None None None.

Definition request_of (authorization : option string) (i : string) (b : body)
  : request :=
  {| headers_authorization := authorization; params_id := i; req_body := b |}.

Definition token_for (userId : Z) (name : string) (issued : Z) : string :=
  sign {| p_id := userId; p_username := name |} JWT_SECRET expiresIn_24h issued.

Definition alice_token : string := token_for 1 "alice" 1000.
Definition bob_token : string := token_for 2 "bob" 1001.

Definition bearer (token : string) : option string :=
  Some ("Bearer " ++ token)%string.

(** After alice and bob have registered (at 1000 and 1001) and alice has
    posted one note (at 1002). *)
Definition db_scenario : Db :=
  {| users :=
       [ {| u_id := 1; u_username := "alice";
            u_password_hash := hashSync "secret1" 10 "salt"; u_created_at := 1000 |};
         {| u_id := 2; u_username := "bob";
            u_password_hash := hashSync "hunter22" 10 "salt"; u_created_at := 1001 |} ];
     notes :=
       [ {| n_id := 1; n_user_id := 1; n_title := "A"; n_content := "B";
            n_tags := ""; n_created_at := 1002; n_updated_at := 1002 |} ];
     users_seq := 2;
     notes_seq := 1 |}.

(** The same before the note was posted. *)
Definition db_registered : Db :=
  {| users := users db_scenario; notes := [];
     users_seq := 2; notes_seq := 0 |}.

Definition alice_note : note_row :=
  {| n_id := 1; n_user_id := 1; n_title := "A"; n_content := "B";
     n_tags := ""; n_created_at := 1002; n_updated_at := 1002 |}.

Definition alice_row : user_row :=
  {| u_id := 1; u_username := "alice";
     u_password_hash := hashSync "secret1" 10 "salt"; u_created_at := 1000 |}.

Definition bob_row : user_row :=
  {| u_id := 2; u_username := "bob";
     u_password_hash := hashSync "hunter22" 10 "salt"; u_created_at := 1001 |}.

Definition alice_claims : claims :=
  {| c_id := 1; c_username := "alice"; iat := 1000; exp := 87400 |}.

Definition bob_claims : claims :=
  {| c_id := 2; c_username := "bob"; iat := 1001; exp := 87401 |}.

(** A request body for the password route. *)
Definition password_fields (old new : option string) : body :=
  {| b_username := None; b_password := None;
     b_title := None; b_content := None; b_tags := None;
     b_oldPassword := old; b_newPassword := new |}.

(** A request body for the account route. *)
Definition account_fields (password : option string) : body :=
  {| b_username := None; b_password := password;
     b_title := None; b_content := None; b_tags := None;
     b_oldPassword := None; b_newPassword := None |}.

End Scenario.

(* ===================================================================== *)
(** ** server.js: the address printed at start-up                         *)
(* ===================================================================== *)

Module Network.

(** An entry of [os.networkInterfaces()[name]]. *)
Record iface : Type := {
  address : string;
  family : string;
  internal : bool
}.

(** [iface.family === 'IPv4' && !iface.internal] *)
Definition is_external_ipv4 (i : iface) : bool :=
  (family i =? "IPv4")%string && negb (internal i).

(** The inner loop of [getLocalIpAddress] over the entries of one name. *)
Fixpoint scan_ifaces (ifaces : list iface) : option string :=
  match ifaces with
  | [] => None
  | i :: rest =>
      if is_external_ipv4 i then Some (address i) else scan_ifaces rest
  end.

(** [getLocalIpAddress()], of the interfaces in the order of
    [Object.keys]: the loops return at the first entry that fits, and the
    function returns null when they end. *)
Fixpoint getLocalIpAddress (interfaces : list (string * list iface))
  : option string :=
  match interfaces with
  | [] => None
  | (name, ifaces) :: rest =>
      match scan_ifaces ifaces with
      | Some a => Some a
      | None => getLocalIpAddress rest
      end
  end.

End Network.

(* ===================================================================== *)
(** ** The mobile client's note model                                     *)
(* ===================================================================== *)

Module Mobile.

(** White space for Dart's [String.trim], among the code units below
    256. *)
Definition is_whitespace (c : ascii) : bool :=
  let n := nat_of_ascii c in
  ((Nat.leb 9 n && Nat.leb n 13) || Nat.eqb n 32 || Nat.eqb n 133
   || Nat.eqb n 160)%bool.

Fixpoint trimLeft (s : string) : string :=
  match s with
  | EmptyString => EmptyString
  | String c rest => if is_whitespace c then trimLeft rest else s
  end.

Fixpoint trimRight (s : string) : string :=
  match s with
  | EmptyString => EmptyString
  | String c rest =>
      match trimRight rest with
      | EmptyString => if is_whitespace c then EmptyString else String c EmptyString
      | kept => String c kept
      end
  end.

(** [tag.trim()] *)
Definition trim (s : string) : string := trimRight (trimLeft s).

(** [Note.getTagsList()]: [tags.split(',')] splits as JavaScript's
    [split] does for a one-character pattern. *)
Definition getTagsList (tags : string) : list string :=
  if (tags =? "")%string then []
  else map trim (JS.split ","%char tags).

(** The first and the last character of a string. *)
Definition first_char (s : string) : option ascii :=
  match s with
  | EmptyString => None
  | String c _ => Some c
  end.

Fixpoint last_char (s : string) : option ascii :=
  match s with
  | EmptyString => None
  | String c EmptyString => Some c
  | String _ rest => last_char rest
  end.

(** How often a character occurs in a string. *)
Fixpoint occurrences (c : ascii) (s : string) : nat :=
  match s with
  | EmptyString => 0%nat
  | String d rest =>
      ((if Ascii.eqb d c then 1 else 0) + occurrences c rest)%nat
  end.

End Mobile.

(* ===================================================================== *)
(** ** What a request writes, and runs of requests                        *)
(* ===================================================================== *)

Module Effects.
Import Database Server.

(** The writes a request can make to the database, with the user on whose
    behalf it is made ([None] for the routes without a token).  The fields
    a row is written with are those the routes let through. *)
Inductive write `{Bcrypt} (env : Env) (db : Db) : option Z -> Db -> Prop :=
| write_nothing (who : option Z) :
    write env db who db
| write_register (name password : string) :
    (3 <= String.length name)%nat ->
    (forall r, In r (users db) -> u_username r <> name) ->
    write env db None (Vocabulary.registered_db name password env db)
| write_insert_note (u : Z) (title content tags : string) :
    title <> "" -> content <> "" ->
    write env db (Some u) (snd (insert_note u title content tags env db))
| write_update_note (u : Z) (noteId : JS.number) (title content tags : string) :
    title <> "" -> content <> "" ->
    write env db (Some u) (snd (update_note title content tags noteId u env db))
| write_delete_note (u : Z) (noteId : JS.number) :
    write env db (Some u) (snd (delete_note noteId u env db))
| write_password (u : Z) (newPasswordHash : string) :
    write env db (Some u) (snd (update_password_hash newPasswordHash u env db))
| write_delete_account (u : Z) :
    write env db (Some u)
      (snd (delete_user u env (snd (delete_notes_of u env db)))).

(** One request: the route, the request and what it reads from outside. *)
Definition call : Type := (route * request * Env)%type.

(** The database after serving the requests one after the other. *)
Fixpoint serve_all `{Bcrypt} `{Jwt} (calls : list call) (db : Db) : Db :=
  match calls with
  | [] => db
  | (r, req, env) :: rest => serve_all rest (snd (app r req env db))
  end.

(** The note routes. *)
Definition is_note_route (r : route) : bool :=
  match r with
  | GET_api_notes | POST_api_notes | PUT_api_notes_id | DELETE_api_notes_id => true
  | _ => false
  end.

(** No stored user has the given id. *)
Definition no_such_user (db : Db) (userId : Z) : Prop :=
  forall r, In r (users db) -> u_id r <> userId.

(** The notes that do not belong to the given user. *)
Definition notes_of_others (userId : Z) (db : Db) : list note_row :=
  filter (fun r => negb (n_user_id r =? userId)) (notes db).

(** The notes that belong to the given user. *)
Definition notes_of (userId : Z) (db : Db) : list note_row :=
  filter (fun r => n_user_id r =? userId) (notes db).

(** What the validation of the routes lets into the tables. *)
Definition validated_note (r : note_row) : Prop :=
  n_title r <> "" /\ n_content r <> "".

Definition validated_user (r : user_row) : Prop :=
  (3 <= String.length (u_username r))%nat.

End Effects.

(* ===================================================================== *)
(** ** Facts about the JavaScript built-ins                               *)
(* ===================================================================== *)

Import JS Database Invariant Vocabulary.
Local Open Scope promise_scope.

(** Unfolds the promise plumbing so that a run of the code computes. *)
Ltac run_promise :=
  unfold await, resolve, reject, CURRENT_TIMESTAMP, new_Date; simpl.

Lemma split_not_nil (sep : ascii) (s : string) : split sep s <> [].
Proof.
  destruct s as [|c rest]; simpl; [discriminate|].
  destruct (Ascii.eqb c sep); [discriminate|].
  destruct (split sep rest); discriminate.
Qed.

(** A separator after a word that has none: the word is the first
    segment. *)
Lemma split_word (sep : ascii) (w rest : string) :
  contains sep w = false ->
  split sep (w ++ String sep rest) = w :: split sep rest.
Proof.
  induction w as [|c w IH]; simpl; intros Hw.
  - now rewrite Ascii.eqb_refl.
  - apply orb_false_iff in Hw as [Hc Hw].
    rewrite Hc, (IH Hw). reflexivity.
Qed.

(** A string without the separator is its only segment. *)
Lemma split_single (sep : ascii) (w : string) :
  contains sep w = false -> split sep w = [w].
Proof.
  induction w as [|c w IH]; simpl; intros Hw; [reflexivity|].
  apply orb_false_iff in Hw as [Hc Hw].
  rewrite Hc, (IH Hw). reflexivity.
Qed.

Lemma truthy_or_empty (v : option string) :
  truthy v = true -> v = Some (or_empty v) /\ or_empty v <> "".
Proof.
  destruct v as [s|]; simpl; [|discriminate].
  intros Hs. split; [reflexivity|].
  intros ->. discriminate.
Qed.

Lemma truthy_Some_length (s : string) :
  (0 < String.length s)%nat -> truthy (Some s) = true.
Proof. destruct s; simpl; [lia | reflexivity]. Qed.

Example parseInt_decimal : parseInt "42" = Int 42.
Proof. reflexivity. Qed.

Example parseInt_signed_hex : parseInt "  -0x1f" = Int (-31).
Proof. reflexivity. Qed.

Example parseInt_letters : parseInt "abc" = NaN.
Proof. reflexivity. Qed.

Example parseInt_empty : parseInt "" = NaN.
Proof. reflexivity. Qed.

Example parseInt_digit_prefix : parseInt "1abc" = Int 1.
Proof. reflexivity. Qed.

Example parseInt_hex_prefix_alone : parseInt "0x" = NaN.
Proof. reflexivity. Qed.

(** Beyond 2^53 the result is the nearest double. *)
Example parseInt_beyond_2_53 :
  parseInt "9007199254740993" = Int 9007199254740992
  /\ parseInt "9007199254740995" = Int 9007199254740996.
Proof. split; reflexivity. Qed.

(** An [:id] that starts with a character that is neither white space, a
    sign nor a decimal digit is not a number for [parseInt]. *)
Lemma parseInt_no_leading_digit (c : ascii) (rest : string) :
  is_white_space c = false -> c <> "-"%char -> c <> "+"%char ->
  is_decimal_digit c = false ->
  parseInt (String c rest) = NaN.
Proof.
  intros Hws Hminus Hplus Hdigit.
  destruct c as [[] [] [] [] [] [] [] []];
    try discriminate; try congruence; reflexivity.
Qed.

(* ===================================================================== *)
(** ** Facts about table scans                                            *)
(* ===================================================================== *)

Section Scans.
Context {A : Type}.
Implicit Types (p : A -> bool) (l : list A).

Lemma find_In_some p l x :
  In x l -> p x = true -> exists y, find p l = Some y.
Proof.
  intros Hin Hp.
  destruct (find p l) as [y|] eqn:E; [now exists y|].
  rewrite (find_none _ _ E x Hin) in Hp. discriminate.
Qed.

Lemma find_none_iff p l :
  find p l = None <-> forall x, In x l -> p x = false.
Proof.
  split; [apply find_none|].
  induction l as [|a l IH]; simpl; intros Hall; [reflexivity|].
  rewrite (Hall a (or_introl eq_refl)). apply IH.
  intros x Hx. apply Hall. now right.
Qed.

Lemma find_after_delete p l :
  find p (filter (fun r => negb (p r)) l) = None.
Proof.
  apply find_none_iff. intros x Hx.
  apply filter_In in Hx as [_ Hx]. now apply negb_true_iff.
Qed.

Lemma filter_length_pos p l x :
  In x l -> p x = true -> (0 < List.length (filter p l))%nat.
Proof.
  intros Hin Hp.
  assert (Hf : In x (filter p l)) by (apply filter_In; now split).
  destruct (filter p l); [contradiction | simpl; lia].
Qed.

Lemma find_app_fresh p l x :
  find p l = None -> find p (l ++ [x]) = if p x then Some x else None.
Proof.
  induction l as [|a l IH]; simpl; [reflexivity|].
  destruct (p a); [discriminate | exact IH].
Qed.

Lemma find_app_old p l x y :
  find p l = Some y -> find p (l ++ [x]) = Some y.
Proof.
  induction l as [|a l IH]; simpl; [discriminate|].
  destruct (p a); [trivial | exact IH].
Qed.

(** A scan after an UPDATE whose SET clause keeps the WHERE clause true. *)
Lemma find_after_update p (f : A -> A) l x :
  (forall r, p r = true -> p (f r) = true) ->
  find p l = Some x ->
  find p (map (fun r => if p r then f r else r) l) = Some (f x).
Proof.
  intros Hkeep.
  induction l as [|a l IH]; simpl; [discriminate|].
  destruct (p a) eqn:Ea.
  - intros [= ->]. now rewrite (Hkeep _ Ea).
  - rewrite Ea. exact IH.
Qed.

Lemma NoDup_map_filter {B : Type} (key : A -> B) p l :
  NoDup (map key l) -> NoDup (map key (filter p l)).
Proof.
  induction l as [|a l IH]; simpl; intros Hnd; [constructor|].
  inversion Hnd as [|? ? Hnotin Hnd']; subst.
  destruct (p a); simpl; [constructor|]; auto.
  intros Hin. apply Hnotin.
  apply in_map_iff in Hin as (y & Hy & Hin).
  apply filter_In in Hin as [Hin _].
  apply in_map_iff. now exists y.
Qed.

Lemma NoDup_map_unique {B : Type} (key : A -> B) l x y :
  NoDup (map key l) -> In x l -> In y l -> key x = key y -> x = y.
Proof.
  induction l as [|a l IH]; simpl; intros Hnd Hx Hy Hk; [contradiction|].
  inversion Hnd as [|? ? Hnotin Hnd']; subst.
  destruct Hx as [->|Hx], Hy as [->|Hy]; auto.
  - exfalso. apply Hnotin. rewrite Hk. now apply in_map.
  - exfalso. apply Hnotin. rewrite <- Hk. now apply in_map.
Qed.

End Scans.

(* ===================================================================== *)
(** ** The note store                                                     *)
(* ===================================================================== *)

Lemma note_where_owned (n : note_row) :
  note_where (Int (n_id n)) (n_user_id n) n = true.
Proof. unfold note_where, id_matches. now rewrite !Z.eqb_refl. Qed.

Lemma note_where_true (noteId : number) (userId : Z) (r : note_row) :
  note_where noteId userId r = true <->
  noteId = Int (n_id r) /\ n_user_id r = userId.
Proof.
  unfold note_where, id_matches. rewrite andb_true_iff.
  destruct noteId as [|z|negative]; rewrite ?Z.eqb_eq.
  - split; [intros [? _]; discriminate | intros [? _]; discriminate].
  - split; [intros [-> ->]; auto | intros [[= ->] ->]; auto].
  - split; [intros [? _]; discriminate | intros [? _]; discriminate].
Qed.

Lemma getNoteById_run (noteId : number) (userId : Z) (env : Env) (db : Db) :
  getNoteById noteId userId env db
  = (Resolved (find (note_where noteId userId) (notes db)), db).
Proof. reflexivity. Qed.

(** [deleteNote] never rejects; it answers whether the scan found a row of
    that id and owner, and afterwards the table holds exactly the other
    rows. *)
Lemma deleteNote_run (noteId : number) (userId : Z) (env : Env) (db : Db) :
  exists db',
    deleteNote noteId userId env db
    = (Resolved (existsb (note_where noteId userId) (notes db)), db')
    /\ notes db' = filter (fun r => negb (note_where noteId userId r)) (notes db)
    /\ users db' = users db
    /\ (existsb (note_where noteId userId) (notes db) = false -> db' = db).
Proof.
  unfold deleteNote, getNoteById, delete_note. run_promise.
  destruct (find (note_where noteId userId) (notes db)) as [x|] eqn:E.
  - apply find_some in E as [Hin Hx].
    assert (Hex : existsb (note_where noteId userId) (notes db) = true)
      by (apply existsb_exists; eauto).
    rewrite Hex.
    exists (snd (delete_note noteId userId env db)). simpl.
    split; [|split; [reflexivity|split; [reflexivity|discriminate]]].
    f_equal. f_equal. apply Nat.ltb_lt. eapply filter_length_pos; eauto.
  - exists db. split; [|split; [|split; [reflexivity|reflexivity]]].
    + f_equal. f_equal. symmetry.
      apply not_true_is_false. intros Hex.
      apply existsb_exists in Hex as (r & Hin & Hr).
      rewrite (find_none _ _ E r Hin) in Hr. discriminate.
    + symmetry. apply forallb_filter_id. apply forallb_forall.
      intros r Hin. now rewrite (find_none _ _ E r Hin).
Qed.

(** C8. Delete idempotence: for every note owned by the caller the first
    [deleteNote(noteId, ownerId)] resolves to true and removes the note, a
    second one resolves to false, rejects nothing and changes nothing; and
    in general [deleteNote] resolves to true exactly when a stored row
    matching both the id and the owner was removed. *)
Theorem deleteNote_idempotent :
  (forall (db : Db) (userId : Z) (n : note_row) (env1 env2 : Env),
      owns db userId n ->
      exists db1,
        deleteNote (Int (n_id n)) userId env1 db = (Resolved true, db1)
        /\ ~ In n (notes db1)
        /\ deleteNote (Int (n_id n)) userId env2 db1 = (Resolved false, db1))
  /\ (forall (db : Db) (noteId : number) (userId : Z) (env : Env),
      exists removed db',
        deleteNote noteId userId env db = (Resolved removed, db')
        /\ (removed = true <->
            exists r, In r (notes db) /\ ~ In r (notes db')
                      /\ noteId = Int (n_id r) /\ n_user_id r = userId)
        /\ (forall r, In r (notes db') <->
                      In r (notes db) /\ ~ (noteId = Int (n_id r) /\ n_user_id r = userId))).
Proof.
  split.
  - intros db userId n env1 env2 [Hin Hown].
    destruct (deleteNote_run (Int (n_id n)) userId env1 db)
      as (db1 & Hrun & Hnotes & _ & _).
    assert (Hex : existsb (note_where (Int (n_id n)) userId) (notes db) = true).
    { apply existsb_exists. exists n. split; [exact Hin|].
      subst userId. apply note_where_owned. }
    rewrite Hex in Hrun.
    exists db1. split; [exact Hrun|]. split.
    + rewrite Hnotes. intros Hn. apply filter_In in Hn as [_ Hn].
      subst userId. now rewrite note_where_owned in Hn.
    + destruct (deleteNote_run (Int (n_id n)) userId env2 db1)
        as (db2 & Hrun2 & _ & _ & Hsame).
      assert (Hex2 : existsb (note_where (Int (n_id n)) userId) (notes db1) = false).
      { apply not_true_is_false. intros H2.
        apply existsb_exists in H2 as (r & Hr & Hw).
        rewrite Hnotes in Hr. apply filter_In in Hr as [_ Hr].
        rewrite Hw in Hr. discriminate. }
      rewrite Hex2 in Hrun2. now rewrite (Hsame Hex2) in Hrun2.
  - intros db noteId userId env.
    destruct (deleteNote_run noteId userId env db)
      as (db' & Hrun & Hnotes & _ & _).
    exists (existsb (note_where noteId userId) (notes db)), db'.
    split; [exact Hrun|]. split.
    + rewrite existsb_exists. split.
      * intros (r & Hin & Hr). exists r. split; [exact Hin|]. split.
        -- rewrite Hnotes. intros Hf. apply filter_In in Hf as [_ Hf].
           rewrite Hr in Hf. discriminate.
        -- now apply note_where_true.
      * intros (r & Hin & _ & Hid & Hown). exists r. split; [exact Hin|].
        now apply note_where_true.
    + intros r. rewrite Hnotes, filter_In, negb_true_iff.
      rewrite <- note_where_true.
      destruct (note_where noteId userId r); intuition congruence.
Qed.

Lemma set_note_where (noteId : number) (userId : Z)
      (title content tags : string) (now : Z) (r : note_row) :
  note_where noteId userId (set_note title content tags now r)
  = note_where noteId userId r.
Proof. reflexivity. Qed.

(** [updateNote] when the ownership lookup finds nothing. *)
Lemma updateNote_absent (noteId : number) (userId : Z)
      (title content tags : string) (env : Env) (db : Db) :
  find (note_where noteId userId) (notes db) = None ->
  updateNote noteId userId title content tags env db = (Resolved None, db).
Proof.
  intros E. unfold updateNote, getNoteById. run_promise. now rewrite E.
Qed.

(** [updateNote] when the ownership lookup finds a row. *)
Lemma updateNote_found (noteId : number) (userId : Z)
      (title content tags : string) (env : Env) (db : Db) (x : note_row) :
  find (note_where noteId userId) (notes db) = Some x ->
  updateNote noteId userId title content tags env db
  = (Resolved (Some (set_note title content tags (clock env) x)),
     {| users := users db;
        notes := map (fun r => if note_where noteId userId r
                               then set_note title content tags (clock env) r
                               else r) (notes db);
        users_seq := users_seq db;
        notes_seq := notes_seq db |}).
Proof.
  intros E. unfold updateNote, getNoteById, update_note. run_promise.
  rewrite E.
  rewrite (find_after_update (note_where noteId userId)
             (set_note title content tags (clock env)) (notes db) x); auto.
Qed.

(** In a well-formed table a stored note is the row its id and owner
    select. *)
Lemma find_owned (db : Db) (n : note_row) :
  wf_db db -> In n (notes db) ->
  find (note_where (Int (n_id n)) (n_user_id n)) (notes db) = Some n.
Proof.
  intros Hwf Hin.
  destruct (find_In_some _ _ n Hin (note_where_owned n)) as [y Hy].
  rewrite Hy. f_equal.
  apply find_some in Hy as [Hyin Hy].
  apply note_where_true in Hy as [[= Hid] _].
  eapply NoDup_map_unique; eauto using wf_note_ids.
Qed.

(** In a well-formed table the id of a note selects nothing for another
    user. *)
Lemma find_foreign (db : Db) (n : note_row) (other : Z) :
  wf_db db -> In n (notes db) -> other <> n_user_id n ->
  find (note_where (Int (n_id n)) other) (notes db) = None.
Proof.
  intros Hwf Hin Hother. apply find_none_iff. intros r Hr.
  apply not_true_is_false. intros Hw.
  apply note_where_true in Hw as [[= Hid] Hown].
  assert (r = n) by (eapply NoDup_map_unique; eauto using wf_note_ids).
  subst r. congruence.
Qed.

Lemma find_missing (db : Db) (noteId userId : Z) :
  no_such_note db noteId ->
  find (note_where (Int noteId) userId) (notes db) = None.
Proof.
  intros Hno. apply find_none_iff. intros r Hr.
  apply not_true_is_false. intros Hw.
  apply note_where_true in Hw as [[= Hid] _].
  exact (Hno r Hr (eq_sym Hid)).
Qed.

(** NULL selects nothing. *)
Lemma find_NaN (db : Db) (userId : Z) :
  find (note_where NaN userId) (notes db) = None.
Proof. apply find_none_iff. reflexivity. Qed.

Lemma existsb_find_none {A : Type} (p : A -> bool) (l : list A) :
  find p l = None -> existsb p l = false.
Proof.
  intros E. apply not_true_is_false. intros Hex.
  apply existsb_exists in Hex as (r & Hin & Hr).
  rewrite (find_none _ _ E r Hin) in Hr. discriminate.
Qed.

Lemma deleteNote_absent (noteId : number) (userId : Z) (env : Env) (db : Db) :
  find (note_where noteId userId) (notes db) = None ->
  deleteNote noteId userId env db = (Resolved false, db).
Proof.
  intros E. unfold deleteNote, getNoteById. run_promise. now rewrite E.
Qed.

(** *** Listing *)

Lemma insert_desc_perm (r : note_row) (l : list note_row) :
  Permutation (insert_desc r l) (r :: l).
Proof.
  induction l as [|x l IH]; simpl; [reflexivity|].
  destruct (n_updated_at x <=? n_updated_at r); [reflexivity|].
  rewrite IH. apply perm_swap.
Qed.

Lemma order_by_perm (l : list note_row) :
  Permutation (order_by_updated_at_desc l) l.
Proof.
  induction l as [|x l IH]; simpl; [constructor|].
  rewrite insert_desc_perm. now constructor.
Qed.

Lemma insert_desc_sorted (r : note_row) (l : list note_row) :
  StronglySorted newest_first l ->
  StronglySorted newest_first (insert_desc r l).
Proof.
  induction 1 as [|x l Hs IH Hall]; simpl.
  - repeat constructor.
  - destruct (n_updated_at x <=? n_updated_at r) eqn:E.
    + apply Z.leb_le in E.
      constructor; [now constructor|].
      constructor; [exact E|].
      eapply Forall_impl; [|exact Hall].
      unfold newest_first. intros a Ha. lia.
    + apply Z.leb_gt in E.
      constructor; [exact IH|].
      eapply Permutation_Forall; [symmetry; apply insert_desc_perm|].
      constructor; [unfold newest_first; lia | exact Hall].
Qed.

(** Rows of the same second come out in scan order. *)
Example order_by_ties_keep_scan_order :
  let row i t :=
    {| n_id := i; n_user_id := 1; n_title := "t"; n_content := "c";
       n_tags := ""; n_created_at := t; n_updated_at := t |} in
  map n_id (order_by_updated_at_desc
              [row 1 5; row 2 5; row 3 5; row 4 7; row 5 3; row 6 7])
  = [4; 6; 1; 2; 3; 5].
Proof. reflexivity. Qed.

Lemma order_by_sorted (l : list note_row) :
  StronglySorted newest_first (order_by_updated_at_desc l).
Proof.
  induction l as [|x l IH]; simpl; [constructor|].
  now apply insert_desc_sorted.
Qed.

(** C7. Listing order: for every owner, [getNotesByUserId] resolves to a
    list that holds exactly the stored notes of that owner (each as often
    as it is stored, and no other note), sorted by [updated_at] in
    descending order, and leaves the database as it was. *)
Theorem getNotesByUserId_sorted (userId : Z) (env : Env) (db : Db) :
  exists rows,
    getNotesByUserId userId env db = (Resolved rows, db)
    /\ Permutation rows (filter (fun r => n_user_id r =? userId) (notes db))
    /\ (forall r, In r rows <-> In r (notes db) /\ n_user_id r = userId)
    /\ StronglySorted newest_first rows.
Proof.
  exists (order_by_updated_at_desc
            (filter (fun r => n_user_id r =? userId) (notes db))).
  split; [reflexivity|]. split; [apply order_by_perm|]. split.
  - intros r. split.
    + intros Hr. apply (Permutation_in _ (order_by_perm _)) in Hr.
      apply filter_In in Hr as [Hin Hown]. now apply Z.eqb_eq in Hown.
    + intros [Hin Hown].
      apply (Permutation_in _ (Permutation_sym (order_by_perm _))).
      apply filter_In. split; [exact Hin | now apply Z.eqb_eq].
  - apply order_by_sorted.
Qed.

(* ===================================================================== *)
(** ** The request gate                                                   *)
(* ===================================================================== *)

Import Server.

Section Gate.
Context `{Bcrypt} `{Jwt}.

Lemma authenticateToken_missing (req : request)
      (next : claims -> Promise response) (env : Env) (db : Db) :
  truthy (token_of (headers_authorization req)) = false ->
  authenticateToken req next env db = (Resolved unauthorized_401, db).
Proof. intros E. unfold authenticateToken. now rewrite E. Qed.

Lemma authenticateToken_invalid (req : request)
      (next : claims -> Promise response) (env : Env) (db : Db) :
  truthy (token_of (headers_authorization req)) = true ->
  verify (or_empty (token_of (headers_authorization req))) JWT_SECRET (clock env)
  = None ->
  authenticateToken req next env db = (Resolved forbidden_403, db).
Proof.
  intros E V. unfold authenticateToken. rewrite E. cbn [negb]. now rewrite V.
Qed.

Lemma authenticateToken_valid (req : request)
      (next : claims -> Promise response) (env : Env) (db : Db) (u : claims) :
  truthy (token_of (headers_authorization req)) = true ->
  verify (or_empty (token_of (headers_authorization req))) JWT_SECRET (clock env)
  = Some u ->
  authenticateToken req next env db = next u env db.
Proof.
  intros E V. unfold authenticateToken. rewrite E. cbn [negb]. now rewrite V.
Qed.

(** A protected route is the gate followed by a handler. *)
Lemma protected_route_gated (r : route) (req : request) :
  protected r = true ->
  exists handler, app r req = authenticateToken req handler.
Proof.
  destruct r; simpl; try discriminate; intros _; eexists; reflexivity.
Qed.

(** C2. Request gate status asymmetry: on every protected route, a request
    from whose Authorization header no token can be taken is answered 401
    and the database is not touched; a request with a token that
    [jwt.verify] rejects is answered 403, the database not touched either.
    The two answers differ, so neither failure produces the status of the
    other. *)
Theorem gate_status_asymmetry (r : route) (req : request) (env : Env) (db : Db) :
  protected r = true ->
  (truthy (token_of (headers_authorization req)) = false ->
   app r req env db = (Resolved unauthorized_401, db))
  /\ (forall token,
        token_of (headers_authorization req) = Some token -> token <> "" ->
        verify token JWT_SECRET (clock env) = None ->
        app r req env db = (Resolved forbidden_403, db))
  /\ status unauthorized_401 = 401 /\ status forbidden_403 = 403.
Proof.
  intros Hp. destruct (protected_route_gated r req Hp) as [handler ->].
  split; [apply authenticateToken_missing|].
  split; [|split; reflexivity].
  intros token Htok Hne Hv.
  apply authenticateToken_invalid; rewrite Htok; simpl; [|exact Hv].
  destruct token; [congruence | reflexivity].
Qed.

Lemma append_sep_not_empty (w rest : string) (c : ascii) :
  (w ++ String c rest)%string <> "".
Proof. destruct w; discriminate. Qed.

(** With a scheme word in front, the token is the first segment of what
    follows the first space, whatever the word. *)
Lemma token_of_scheme (scheme rest : string) :
  is_word scheme = true ->
  token_of (Some (scheme ++ String " "%char rest)%string)
  = index (split " "%char rest) 0.
Proof.
  intros Hw. apply negb_true_iff in Hw.
  unfold token_of. simpl.
  destruct (String.eqb_spec (scheme ++ String " "%char rest) "") as [E|_].
  - now apply append_sep_not_empty in E.
  - simpl. now rewrite split_word.
Qed.

(** A header value without a second segment yields no token. *)
Lemma token_of_one_segment (h : string) :
  index (split " "%char h) 1 = None -> truthy (token_of (Some h)) = false.
Proof.
  intros E. unfold token_of. cbn [or_empty].
  destruct (truthy (Some h)) eqn:T; [now rewrite E | exact T].
Qed.

(** C9. The gate takes the second space-separated segment of the
    Authorization header value and never looks at the scheme word: a value
    without a second segment, a bare token among them, is answered 401 as a
    missing credential; after any scheme word the rest of the value is
    treated as after [Bearer], on every protected route; and a token that
    verifies is accepted after any scheme word. *)
Theorem gate_ignores_scheme :
  (forall (req : request) (h : string) next env db,
      headers_authorization req = Some h ->
      index (split " "%char h) 1 = None ->
      authenticateToken req next env db = (Resolved unauthorized_401, db))
  /\ (forall (req : request) (token : string) next env db,
        is_word token = true ->
        headers_authorization req = Some token ->
        authenticateToken req next env db = (Resolved unauthorized_401, db))
  /\ (forall (scheme rest : string) (r : route) (req : request) env db,
        is_word scheme = true ->
        protected r = true ->
        app r (with_authorization (Some (scheme ++ " " ++ rest)%string) req) env db
        = app r (with_authorization (Some ("Bearer " ++ rest)%string) req) env db)
  /\ (forall (scheme token : string) (u : claims) (req : request) next env db,
        is_word scheme = true ->
        is_word token = true -> token <> "" ->
        verify token JWT_SECRET (clock env) = Some u ->
        headers_authorization req = Some (scheme ++ " " ++ token)%string ->
        authenticateToken req next env db = next u env db).
Proof.
  split; [|split; [|split]].
  - intros req h next env db Hh Hseg.
    apply authenticateToken_missing. rewrite Hh.
    now apply token_of_one_segment.
  - intros req token next env db Hw Hh.
    apply authenticateToken_missing. rewrite Hh.
    apply token_of_one_segment.
    apply negb_true_iff in Hw. now rewrite split_single.
  - intros scheme rest r req env db Hw Hp.
    assert (Htok : token_of (Some (scheme ++ " " ++ rest)%string)
                   = token_of (Some ("Bearer " ++ rest)%string)).
    { change (scheme ++ " " ++ rest)%string
        with (scheme ++ String " "%char rest)%string.
      change ("Bearer " ++ rest)%string
        with ("Bearer" ++ String " "%char rest)%string.
      rewrite !token_of_scheme; auto. }
    destruct r; simpl in Hp; try discriminate;
      unfold app, get_notes, post_notes, put_notes_id, delete_notes_id,
        put_user_password, delete_user_account, authenticateToken,
        with_authorization;
      cbn [headers_authorization req_body params_id];
      rewrite Htok; reflexivity.
  - intros scheme token u req next env db Hs Ht Hne Hv Hh.
    assert (Htok : token_of (headers_authorization req) = Some token).
    { rewrite Hh.
      change (scheme ++ " " ++ token)%string
        with (scheme ++ String " "%char token)%string.
      rewrite token_of_scheme by exact Hs.
      apply negb_true_iff in Ht. now rewrite split_single. }
    apply authenticateToken_valid; rewrite Htok; simpl; [|exact Hv].
    destruct token; [congruence | reflexivity].
Qed.

End Gate.

(* ===================================================================== *)
(** ** Every statement keeps the database well formed                    *)
(* ===================================================================== *)

Lemma NoDup_snoc {A : Type} (l : list A) (x : A) :
  NoDup l -> ~ In x l -> NoDup (l ++ [x]).
Proof.
  intros Hnd Hx.
  apply (Permutation_NoDup (Permutation_cons_append l x)).
  now constructor.
Qed.

Lemma wf_empty_db : wf_db empty_db.
Proof. constructor; simpl; try constructor; lia. Qed.

Lemma fresh_id_not_stored {A : Type} (key : A -> Z) (l : list A) (seq : Z) :
  Forall (fun r => 1 <= key r <= seq) l -> ~ In (seq + 1) (map key l).
Proof.
  intros Hall Hin. apply in_map_iff in Hin as (r & Hk & Hr).
  rewrite Forall_forall in Hall. specialize (Hall r Hr). lia.
Qed.

Section Statements.
Context `{Bcrypt}.

Lemma insert_note_wf (userId : Z) (title content tags : string)
      (env : Env) (db : Db) :
  wf_db db -> wf_db (snd (insert_note userId title content tags env db)).
Proof.
  intros [Hn Hns Hu Hus Hnames [Hs1 Hs2]].
  constructor; simpl; auto; try lia.
  - rewrite map_app. simpl. apply NoDup_snoc; [exact Hn|].
    now apply fresh_id_not_stored.
  - apply Forall_app. split.
    + eapply Forall_impl; [|exact Hns]. simpl. intros; lia.
    + constructor; [simpl; lia | constructor].
Qed.

Lemma insert_user_wf (name hash : string) (env : Env) (db : Db) :
  wf_db db -> wf_db (snd (insert_user name hash env db)).
Proof.
  intros Hwf. unfold insert_user.
  destruct (existsb (user_where_username name) (users db)) eqn:E;
    [exact Hwf|].
  destruct Hwf as [Hn Hns Hu Hus Hnames [Hs1 Hs2]].
  constructor; simpl; auto; try lia.
  - rewrite map_app. simpl. apply NoDup_snoc; [exact Hu|].
    now apply fresh_id_not_stored.
  - apply Forall_app. split.
    + eapply Forall_impl; [|exact Hus]. simpl. intros; lia.
    + constructor; [simpl; lia | constructor].
  - rewrite map_app. simpl. apply NoDup_snoc; [exact Hnames|].
    intros Hin. apply in_map_iff in Hin as (r & Hr & Hin).
    assert (Hex : existsb (user_where_username name) (users db) = true).
    { apply existsb_exists. exists r. split; [exact Hin|].
      unfold user_where_username. now apply String.eqb_eq. }
    congruence.
Qed.

Lemma update_note_wf (title content tags : string) (noteId : number)
      (userId : Z) (env : Env) (db : Db) :
  wf_db db ->
  wf_db (snd (update_note title content tags noteId userId env db)).
Proof.
  intros [Hn Hns Hu Hus Hnames Hs].
  constructor; simpl; auto.
  - rewrite map_map.
    erewrite map_ext; [exact Hn|].
    intros r. now destruct (note_where noteId userId r).
  - apply Forall_map. eapply Forall_impl; [|exact Hns].
    intros r Hr. now destruct (note_where noteId userId r).
Qed.

Lemma Forall_filter {A : Type} (P : A -> Prop) (p : A -> bool) (l : list A) :
  Forall P l -> Forall P (filter p l).
Proof.
  rewrite !Forall_forall. intros Hall x Hx.
  apply filter_In in Hx as [Hx _]. auto.
Qed.

Lemma delete_note_wf (noteId : number) (userId : Z) (env : Env) (db : Db) :
  wf_db db -> wf_db (snd (delete_note noteId userId env db)).
Proof.
  intros [Hn Hns Hu Hus Hnames Hs].
  constructor; simpl; auto using NoDup_map_filter, Forall_filter.
Qed.

Lemma delete_notes_of_wf (userId : Z) (env : Env) (db : Db) :
  wf_db db -> wf_db (snd (delete_notes_of userId env db)).
Proof.
  intros [Hn Hns Hu Hus Hnames Hs].
  constructor; simpl; auto using NoDup_map_filter, Forall_filter.
Qed.

Lemma delete_user_wf (userId : Z) (env : Env) (db : Db) :
  wf_db db -> wf_db (snd (delete_user userId env db)).
Proof.
  intros [Hn Hns Hu Hus Hnames Hs].
  constructor; simpl; auto using NoDup_map_filter, Forall_filter.
Qed.

Lemma update_password_hash_wf (hash : string) (userId : Z)
      (env : Env) (db : Db) :
  wf_db db -> wf_db (snd (update_password_hash hash userId env db)).
Proof.
  intros [Hn Hns Hu Hus Hnames Hs].
  constructor; simpl; auto.
  - rewrite map_map. erewrite map_ext; [exact Hu|].
    intros r. now destruct (user_where_id userId r).
  - apply Forall_map. eapply Forall_impl; [|exact Hus].
    intros r Hr. now destruct (user_where_id userId r).
  - rewrite map_map. erewrite map_ext; [exact Hnames|].
    intros r. now destruct (user_where_id userId r).
Qed.

(** The functions of [database.js]. *)

Lemma createUser_wf (name password : string) (env : Env) (db : Db) :
  wf_db db -> wf_db (snd (createUser name password env db)).
Proof.
  intros Hwf. unfold createUser. run_promise.
  pose proof (insert_user_wf name (hashSync password 10 (salt env)) env db Hwf)
    as Hins.
  destruct (insert_user name (hashSync password 10 (salt env)) env db)
    as [[lastID|err] db']; exact Hins.
Qed.

Lemma createNote_wf (userId : Z) (title content tags : string)
      (env : Env) (db : Db) :
  wf_db db -> wf_db (snd (createNote userId title content tags env db)).
Proof.
  intros Hwf. exact (insert_note_wf userId title content tags env db Hwf).
Qed.

Lemma updateNote_wf (noteId : number) (userId : Z)
      (title content tags : string) (env : Env) (db : Db) :
  wf_db db -> wf_db (snd (updateNote noteId userId title content tags env db)).
Proof.
  intros Hwf.
  destruct (find (note_where noteId userId) (notes db)) as [x|] eqn:E.
  - rewrite (updateNote_found _ _ _ _ _ _ _ x E).
    exact (update_note_wf title content tags noteId userId env db Hwf).
  - now rewrite (updateNote_absent _ _ _ _ _ _ _ E).
Qed.

Lemma deleteNote_wf (noteId : number) (userId : Z) (env : Env) (db : Db) :
  wf_db db -> wf_db (snd (deleteNote noteId userId env db)).
Proof.
  intros Hwf. unfold deleteNote, getNoteById. run_promise.
  destruct (find (note_where noteId userId) (notes db)); [|exact Hwf].
  exact (delete_note_wf noteId userId env db Hwf).
Qed.

Lemma verifyUser_db (name password : string) (env : Env) (db : Db) :
  snd (verifyUser name password env db) = db.
Proof.
  unfold verifyUser, getUserByUsername. run_promise.
  destruct (find (user_where_username name) (users db)) as [r|];
    [|reflexivity].
  now destruct (compareSync password (u_password_hash r)).
Qed.

Lemma changePassword_wf (userId : Z) (old new : string) (env : Env) (db : Db) :
  wf_db db -> wf_db (snd (changePassword userId old new env db)).
Proof.
  intros Hwf. unfold changePassword, select_user_by_id. run_promise.
  destruct (find (user_where_id userId) (users db)) as [r|]; [|exact Hwf].
  destruct (compareSync old (u_password_hash r)); simpl; [|exact Hwf].
  exact (update_password_hash_wf _ userId env db Hwf).
Qed.

Lemma deleteUserAccount_wf (userId : Z) (password : string)
      (env : Env) (db : Db) :
  wf_db db -> wf_db (snd (deleteUserAccount userId password env db)).
Proof.
  intros Hwf. unfold deleteUserAccount, select_user_by_id. run_promise.
  destruct (find (user_where_id userId) (users db)) as [r|]; [|exact Hwf].
  destruct (compareSync password (u_password_hash r)); simpl; [|exact Hwf].
  exact (delete_user_wf userId env _ (delete_notes_of_wf userId env db Hwf)).
Qed.

End Statements.

(* ===================================================================== *)
(** ** Every route keeps the database well formed                        *)
(* ===================================================================== *)

Section Routes.
Context `{Bcrypt} `{Jwt}.

Lemma authenticateToken_keeps (P : Db -> Prop) (req : request)
      (next : claims -> Promise response) (env : Env) (db : Db) :
  P db -> (forall u, P (snd (next u env db))) ->
  P (snd (authenticateToken req next env db)).
Proof.
  intros Hdb Hnext. unfold authenticateToken.
  destruct (negb (truthy (token_of (headers_authorization req))));
    [exact Hdb|].
  destruct (verify _ _ _); [apply Hnext | exact Hdb].
Qed.

Lemma try_catch_keeps (P : Db -> Prop) (block : Promise response)
      (env : Env) (db : Db) :
  P (snd (block env db)) ->
  P (snd (try_catch block internal_server_error env db)).
Proof.
  unfold try_catch. destruct (block env db) as [[resp|err] db']; auto.
Qed.

Lemma await_keeps {A : Type} (P : Db -> Prop) (p : Promise A)
      (k : A -> Promise response) (env : Env) (db : Db) :
  P (snd (p env db)) ->
  (forall a db', P db' -> P (snd (k a env db'))) ->
  P (snd (await p k env db)).
Proof.
  intros Hp Hk. unfold await.
  destruct (p env db) as [[a|err] db']; simpl in *; auto.
Qed.

Lemma post_register_wf (req : request) (env : Env) (db : Db) :
  wf_db db -> wf_db (snd (post_register req env db)).
Proof.
  intros Hwf. unfold post_register. apply try_catch_keeps.
  destruct (negb (truthy (b_username (req_body req)))
            || negb (truthy (b_password (req_body req)))); [exact Hwf|].
  destruct (String.length _ <? 3)%nat; [exact Hwf|].
  destruct (String.length _ <? 6)%nat; [exact Hwf|].
  apply await_keeps; [exact Hwf|].
  intros [existing|] db' Hwf'; [exact Hwf'|].
  apply await_keeps; [now apply createUser_wf|].
  intros user db'' Hwf''. exact Hwf''.
Qed.

Lemma post_login_wf (req : request) (env : Env) (db : Db) :
  wf_db db -> wf_db (snd (post_login req env db)).
Proof.
  intros Hwf. unfold post_login. apply try_catch_keeps.
  destruct (negb (truthy (b_username (req_body req)))
            || negb (truthy (b_password (req_body req)))); [exact Hwf|].
  apply await_keeps; [now rewrite verifyUser_db|].
  intros [user|] db' Hwf'; exact Hwf'.
Qed.

(** Whatever the request, every route leaves a
    well-formed database well formed, so every database the application
    reaches from the empty one is well formed. *)
Lemma app_wf (r : route) (req : request) (env : Env) (db : Db) :
  wf_db db -> wf_db (snd (app r req env db)).
Proof.
  intros Hwf. destruct r; simpl.
  - now apply post_register_wf.
  - now apply post_login_wf.
  - unfold get_notes. apply authenticateToken_keeps; [exact Hwf|].
    intros u. apply try_catch_keeps. exact Hwf.
  - unfold post_notes. apply authenticateToken_keeps; [exact Hwf|].
    intros u. apply try_catch_keeps.
    destruct (negb (truthy (b_title (req_body req)))
              || negb (truthy (b_content (req_body req)))); [exact Hwf|].
    apply await_keeps; [now apply createNote_wf|]. auto.
  - unfold put_notes_id. apply authenticateToken_keeps; [exact Hwf|].
    intros u. apply try_catch_keeps.
    destruct (negb (truthy (b_title (req_body req)))
              || negb (truthy (b_content (req_body req)))); [exact Hwf|].
    apply await_keeps; [now apply updateNote_wf|].
    intros [n|] db' Hwf'; exact Hwf'.
  - unfold delete_notes_id. apply authenticateToken_keeps; [exact Hwf|].
    intros u. apply try_catch_keeps.
    apply await_keeps; [now apply deleteNote_wf|].
    intros [|] db' Hwf'; exact Hwf'.
  - unfold put_user_password. apply authenticateToken_keeps; [exact Hwf|].
    intros u. apply try_catch_keeps.
    destruct (negb (truthy (b_oldPassword (req_body req)))
              || negb (truthy (b_newPassword (req_body req)))); [exact Hwf|].
    destruct (String.length _ <? 6)%nat; [exact Hwf|].
    destruct (_ =? _)%string; [exact Hwf|].
    apply await_keeps; [now apply changePassword_wf|].
    intros [|] db' Hwf'; exact Hwf'.
  - unfold delete_user_account. apply authenticateToken_keeps; [exact Hwf|].
    intros u. apply try_catch_keeps.
    destruct (negb (truthy (b_password (req_body req)))); [exact Hwf|].
    apply await_keeps; [now apply deleteUserAccount_wf|].
    intros [|] db' Hwf'; exact Hwf'.
Qed.

Lemma reachable_wf (db : Db) : reachable db -> wf_db db.
Proof.
  induction 1 as [|r req env db Hreach IH];
    [exact wf_empty_db | now apply app_wf].
Qed.

End Routes.

(* ===================================================================== *)
(** ** The notes routes                                                   *)
(* ===================================================================== *)

Section NotesRoutes.
Context `{Bcrypt} `{Jwt}.

Lemma tags_or_empty (tags : option string) :
  (if truthy tags then or_empty tags else "") = or_empty tags.
Proof. destruct tags as [[|c s]|]; reflexivity. Qed.

(** Past the gate, with a field missing. *)
Lemma post_notes_invalid (req : request) (env : Env) (db : Db) (u : claims) :
  authenticated_as req env u ->
  truthy (b_title (req_body req)) && truthy (b_content (req_body req)) = false ->
  post_notes req env db
  = (Resolved {| status := 400;
                 json_body := Error "Title and content are required" |}, db).
Proof.
  intros [Ht Hv] Hmiss. unfold post_notes.
  rewrite (authenticateToken_valid _ _ _ _ u Ht Hv).
  unfold try_catch. rewrite <- negb_andb, Hmiss. reflexivity.
Qed.

Lemma put_notes_id_invalid (req : request) (env : Env) (db : Db) (u : claims) :
  authenticated_as req env u ->
  truthy (b_title (req_body req)) && truthy (b_content (req_body req)) = false ->
  put_notes_id req env db
  = (Resolved {| status := 400;
                 json_body := Error "Title and content are required" |}, db).
Proof.
  intros [Ht Hv] Hmiss. unfold put_notes_id.
  rewrite (authenticateToken_valid _ _ _ _ u Ht Hv).
  unfold try_catch. rewrite <- negb_andb, Hmiss. reflexivity.
Qed.

(** Past the gate and the validation, [PUT /api/notes/:id] answers as
    [updateNote] resolves. *)
Lemma put_notes_id_valid (req : request) (env : Env) (db : Db) (u : claims) :
  authenticated_as req env u ->
  truthy (b_title (req_body req)) && truthy (b_content (req_body req)) = true ->
  put_notes_id req env db
  = match updateNote (parseInt (params_id req)) (c_id u)
            (or_empty (b_title (req_body req)))
            (or_empty (b_content (req_body req)))
            (or_empty (b_tags (req_body req))) env db with
    | (Resolved None, db') => (Resolved not_found_404, db')
    | (Resolved (Some n), db') =>
        (Resolved {| status := 200;
                     json_body := Note "Note updated successfully" (Some n) |}, db')
    | (Rejected _, db') =>
        (Resolved {| status := 500;
                     json_body := Error "Internal server error" |}, db')
    end.
Proof.
  intros [Ht Hv] Hok. unfold put_notes_id.
  rewrite (authenticateToken_valid _ _ _ _ u Ht Hv).
  unfold try_catch. rewrite <- negb_andb, Hok. cbn [negb].
  rewrite tags_or_empty. unfold await.
  destruct (updateNote _ _ _ _ _ env db) as [[[n|]|err] db']; reflexivity.
Qed.

(** Past the gate, [DELETE /api/notes/:id] answers as [deleteNote]
    resolves. *)
Lemma delete_notes_id_authenticated (req : request) (env : Env) (db : Db)
      (u : claims) :
  authenticated_as req env u ->
  delete_notes_id req env db
  = match deleteNote (parseInt (params_id req)) (c_id u) env db with
    | (Resolved false, db') => (Resolved not_found_404, db')
    | (Resolved true, db') =>
        (Resolved {| status := 200;
                     json_body := Message "Note deleted successfully" |}, db')
    | (Rejected _, db') =>
        (Resolved {| status := 500;
                     json_body := Error "Internal server error" |}, db')
    end.
Proof.
  intros [Ht Hv]. unfold delete_notes_id.
  rewrite (authenticateToken_valid _ _ _ _ u Ht Hv).
  unfold try_catch, await.
  destruct (deleteNote _ _ env db) as [[[|]|err] db']; reflexivity.
Qed.

(** What a route does with a note id that selects no row of the caller. *)
Lemma put_notes_id_no_row (req : request) (env : Env) (db : Db) (u : claims) :
  authenticated_as req env u ->
  find (note_where (parseInt (params_id req)) (c_id u)) (notes db) = None ->
  put_notes_id req env db
  = (Resolved
       (if truthy (b_title (req_body req)) && truthy (b_content (req_body req))
        then not_found_404
        else {| status := 400;
                json_body := Error "Title and content are required" |}), db).
Proof.
  intros Hadm Hnone.
  destruct (truthy (b_title (req_body req)) && truthy (b_content (req_body req)))
    eqn:Hok.
  - rewrite (put_notes_id_valid _ _ _ u Hadm Hok).
    now rewrite (updateNote_absent _ _ _ _ _ _ _ Hnone).
  - now apply (put_notes_id_invalid _ _ _ u).
Qed.

Lemma delete_notes_id_no_row (req : request) (env : Env) (db : Db)
      (u : claims) :
  authenticated_as req env u ->
  find (note_where (parseInt (params_id req)) (c_id u)) (notes db) = None ->
  delete_notes_id req env db = (Resolved not_found_404, db).
Proof.
  intros Hadm Hnone.
  rewrite (delete_notes_id_authenticated _ _ _ u Hadm).
  now rewrite (deleteNote_absent _ _ _ _ Hnone).
Qed.

(** C1. Ownership isolation: in a well-formed database, for a stored note
    [n] and any user [other] that is not its owner, [getNoteById] resolves
    to null, [updateNote] to null and [deleteNote] to false, nothing is
    changed, and these are the outcomes for an id [missing] that no stored
    note has.  On the routes, a request by [other] for the id of [n] is
    answered exactly as the same request for the missing id, and the
    database is as before. *)
Theorem ownership_isolation (db : Db) (n : note_row) (other missing : Z) :
  wf_db db -> In n (notes db) -> other <> n_user_id n ->
  no_such_note db missing ->
  (forall env,
      getNoteById (Int (n_id n)) other env db = (Resolved None, db)
      /\ getNoteById (Int missing) other env db = (Resolved None, db))
  /\ (forall title content tags env,
      updateNote (Int (n_id n)) other title content tags env db
      = (Resolved None, db)
      /\ updateNote (Int missing) other title content tags env db
         = (Resolved None, db))
  /\ (forall env,
      deleteNote (Int (n_id n)) other env db = (Resolved false, db)
      /\ deleteNote (Int missing) other env db = (Resolved false, db))
  /\ (forall req env u i j,
      authenticated_as req env u -> c_id u = other ->
      parseInt i = Int (n_id n) -> parseInt j = Int missing ->
      put_notes_id (with_params_id i req) env db
      = put_notes_id (with_params_id j req) env db
      /\ snd (put_notes_id (with_params_id i req) env db) = db
      /\ (truthy (b_title (req_body req)) && truthy (b_content (req_body req))
          = true ->
          put_notes_id (with_params_id i req) env db
          = (Resolved not_found_404, db))
      /\ delete_notes_id (with_params_id i req) env db
         = (Resolved not_found_404, db)
      /\ delete_notes_id (with_params_id j req) env db
         = (Resolved not_found_404, db)).
Proof.
  intros Hwf Hin Hother Hmiss.
  pose proof (find_foreign db n other Hwf Hin Hother) as Hforeign.
  pose proof (find_missing db missing other Hmiss) as Hnone.
  split; [|split; [|split]].
  - intros env. rewrite !getNoteById_run, Hforeign, Hnone. auto.
  - intros title content tags env.
    now rewrite !updateNote_absent.
  - intros env. now rewrite !deleteNote_absent.
  - intros req env u i j Hadm Hu Hi Hj. subst other.
    assert (Hadm_i : authenticated_as (with_params_id i req) env u) by exact Hadm.
    assert (Hadm_j : authenticated_as (with_params_id j req) env u) by exact Hadm.
    rewrite (put_notes_id_no_row _ _ _ u Hadm_i)
      by (cbn [with_params_id params_id]; now rewrite Hi).
    rewrite (put_notes_id_no_row _ _ _ u Hadm_j)
      by (cbn [with_params_id params_id]; now rewrite Hj).
    rewrite (delete_notes_id_no_row _ _ _ u Hadm_i)
      by (cbn [with_params_id params_id]; now rewrite Hi).
    rewrite (delete_notes_id_no_row _ _ _ u Hadm_j)
      by (cbn [with_params_id params_id]; now rewrite Hj).
    cbn [with_params_id req_body fst snd].
    repeat split. now intros ->.
Qed.

(** C10, as the code has it.  For every [:id] that [parseInt] turns into
    NaN, with a token the gate accepts: [PUT /api/notes/:id] with title and
    content present and [DELETE /api/notes/:id] both answer the usual 404
    "Note not found or unauthorized", never 500, and the database is
    unchanged. *)
Theorem nan_id_not_found (req : request) (env : Env) (db : Db) (u : claims) :
  authenticated_as req env u ->
  parseInt (params_id req) = NaN ->
  (truthy (b_title (req_body req)) && truthy (b_content (req_body req)) = true ->
   put_notes_id req env db = (Resolved not_found_404, db))
  /\ delete_notes_id req env db = (Resolved not_found_404, db).
Proof.
  intros Hadm Hnan. split.
  - intros Hok.
    rewrite (put_notes_id_no_row _ _ _ u Hadm)
      by (rewrite Hnan; apply find_NaN).
    now rewrite Hok.
  - apply (delete_notes_id_no_row _ _ _ u Hadm).
    rewrite Hnan. apply find_NaN.
Qed.

(** C6, as the code has it.  For every create-note or update-note request
    that the gate lets through and in which title or content is missing or
    empty, the answer is 400 with the one message "Title and content are
    required", whichever of the two is missing, and the database is
    unchanged. *)
Theorem missing_field_one_message (req : request) (env : Env) (db : Db)
        (u : claims) :
  authenticated_as req env u ->
  truthy (b_title (req_body req)) = false
  \/ truthy (b_content (req_body req)) = false ->
  post_notes req env db
  = (Resolved {| status := 400;
                 json_body := Error "Title and content are required" |}, db)
  /\ put_notes_id req env db
     = (Resolved {| status := 400;
                    json_body := Error "Title and content are required" |}, db).
Proof.
  intros Hadm Hmiss.
  assert (Hand : truthy (b_title (req_body req))
                 && truthy (b_content (req_body req)) = false).
  { apply andb_false_iff. exact Hmiss. }
  split.
  - now apply (post_notes_invalid _ _ _ u).
  - now apply (put_notes_id_invalid _ _ _ u).
Qed.

End NotesRoutes.

(* ===================================================================== *)
(** ** Creation and update of a note                                      *)
(* ===================================================================== *)

(** The row [createNote] stores. *)
Lemma createNote_run (userId : Z) (title content tags : string)
      (env : Env) (db : Db) :
  wf_db db ->
  let note := {| n_id := notes_seq db + 1; n_user_id := userId;
                 n_title := title; n_content := content; n_tags := tags;
                 n_created_at := clock env; n_updated_at := clock env |} in
  createNote userId title content tags env db
  = (Resolved (Some note),
     {| users := users db; notes := notes db ++ [note];
        users_seq := users_seq db; notes_seq := notes_seq db + 1 |}).
Proof.
  intros Hwf note. unfold createNote, insert_note, getNoteById. run_promise.
  fold note. rewrite find_app_fresh.
  - unfold note_where, id_matches. simpl. now rewrite !Z.eqb_refl.
  - apply find_none_iff. intros r Hr.
    apply not_true_is_false. intros Hw.
    apply note_where_true in Hw as [[= Hid] _].
    pose proof (wf_note_seq db Hwf) as Hseq.
    rewrite Forall_forall in Hseq. specialize (Hseq r Hr). lia.
Qed.

(** In a well-formed table, the UPDATE of [updateNote] for the id and
    owner of a stored note rewrites that row and no other. *)
Lemma update_hits_one_row (db : Db) (n r : note_row) :
  wf_db db -> In n (notes db) -> In r (notes db) ->
  note_where (Int (n_id n)) (n_user_id n) r = true -> r = n.
Proof.
  intros Hwf Hn Hr Hw.
  apply note_where_true in Hw as [[= Hid] _].
  eapply NoDup_map_unique; eauto using wf_note_ids.
Qed.

(** C5, as the code has it.  Update frame: [createNote] stores a note whose
    [created_at] and [updated_at] both are the clock reading of the
    creation; for every note owned by the caller, [updateNote] overwrites
    title, content and tags, sets [updated_at] to the clock reading of the
    update, keeps [created_at], id and owner, and changes no other note and
    no user; [updated_at] then exceeds the kept [created_at] exactly when
    the update is made at a later second than [created_at], and is not
    below it when the clock has not gone back; if the ownership lookup
    finds nothing, [updateNote] resolves to null and changes nothing. *)
Theorem update_frame :
  (forall (db : Db) (userId : Z) (title content tags : string) (env env' : Env),
      wf_db db ->
      exists note db1,
        createNote userId title content tags env db = (Resolved (Some note), db1)
        /\ wf_db db1 /\ owns db1 userId note
        /\ n_title note = title /\ n_content note = content /\ n_tags note = tags
        /\ n_created_at note = clock env /\ n_updated_at note = n_created_at note
        /\ getNoteById (Int (n_id note)) userId env' db1 = (Resolved (Some note), db1))
  /\ (forall (db : Db) (userId : Z) (n : note_row)
             (title content tags : string) (env : Env),
      wf_db db -> owns db userId n ->
      exists n' db2,
        updateNote (Int (n_id n)) userId title content tags env db
        = (Resolved (Some n'), db2)
        /\ n_title n' = title /\ n_content n' = content /\ n_tags n' = tags
        /\ n_updated_at n' = clock env
        /\ n_created_at n' = n_created_at n
        /\ n_id n' = n_id n /\ n_user_id n' = n_user_id n
        /\ (forall r, In r (notes db2) <-> r = n' \/ (In r (notes db) /\ r <> n))
        /\ users db2 = users db
        /\ (n_created_at n' < n_updated_at n' <-> n_created_at n < clock env)
        /\ (n_created_at n <= clock env -> n_created_at n' <= n_updated_at n'))
  /\ (forall (db : Db) (noteId : number) (userId : Z)
             (title content tags : string) (env : Env),
      getNoteById noteId userId env db = (Resolved None, db) ->
      updateNote noteId userId title content tags env db = (Resolved None, db)).
Proof.
  split; [|split].
  - intros db userId title content tags env env' Hwf.
    pose proof (createNote_run userId title content tags env db Hwf) as Hrun.
    pose proof (createNote_wf userId title content tags env db Hwf) as Hwf1.
    cbv zeta in Hrun. rewrite Hrun in Hwf1. simpl in Hwf1.
    eexists. eexists. split; [exact Hrun|].
    split; [exact Hwf1|].
    assert (Hown : owns
                     {| users := users db;
                        notes := notes db ++
                          [ {| n_id := notes_seq db + 1; n_user_id := userId;
                               n_title := title; n_content := content;
                               n_tags := tags; n_created_at := clock env;
                               n_updated_at := clock env |} ];
                        users_seq := users_seq db;
                        notes_seq := notes_seq db + 1 |} userId
                     {| n_id := notes_seq db + 1; n_user_id := userId;
                        n_title := title; n_content := content;
                        n_tags := tags; n_created_at := clock env;
                        n_updated_at := clock env |}).
    { split; [|reflexivity]. simpl. apply in_or_app. right. now left. }
    split; [exact Hown|].
    repeat (split; [reflexivity|]).
    rewrite getNoteById_run. f_equal. f_equal.
    destruct Hown as [Hin _].
    exact (find_owned _ _ Hwf1 Hin).
  - intros db userId n title content tags env Hwf [Hin Hown]. subst userId.
    pose proof (find_owned db n Hwf Hin) as Hfind.
    rewrite (updateNote_found _ _ _ _ _ _ _ n Hfind).
    eexists. eexists. split; [reflexivity|].
    repeat (split; [reflexivity|]).
    split; [|split; [reflexivity|simpl; split; [reflexivity|auto]]].
    intros r. simpl. rewrite in_map_iff. split.
    + intros (r0 & Hr0 & Hin0).
      destruct (note_where (Int (n_id n)) (n_user_id n) r0) eqn:Hw.
      * left. rewrite (update_hits_one_row db n r0 Hwf Hin Hin0 Hw) in Hr0.
        now symmetry.
      * right. subst r0. split; [exact Hin0|].
        intros ->. now rewrite note_where_owned in Hw.
    + intros [->|[Hr Hne]].
      * exists n. split; [|exact Hin]. now rewrite note_where_owned.
      * exists r. split; [|exact Hr].
        destruct (note_where (Int (n_id n)) (n_user_id n) r) eqn:Hw;
          [|reflexivity].
        exfalso. apply Hne. exact (update_hits_one_row db n r Hwf Hin Hr Hw).
  - intros db noteId userId title content tags env Hget.
    rewrite getNoteById_run in Hget.
    apply updateNote_absent. congruence.
Qed.

(* ===================================================================== *)
(** ** Registration and login                                             *)
(* ===================================================================== *)

Section Accounts.
Context `{Bcrypt} `{Jwt}.

(** [POST /api/register], case by case. *)
Lemma post_register_run (req : request) (env : Env) (db : Db) :
  let name := or_empty (b_username (req_body req)) in
  let password := or_empty (b_password (req_body req)) in
  post_register req env db
  = if negb (truthy (b_username (req_body req)))
       || negb (truthy (b_password (req_body req)))
    then (Resolved {| status := 400;
                      json_body := Error "Username and password are required" |}, db)
    else if (String.length name <? 3)%nat
    then (Resolved {| status := 400;
                      json_body := Error "Username must be at least 3 characters" |}, db)
    else if (String.length password <? 6)%nat
    then (Resolved {| status := 400;
                      json_body := Error "Password must be at least 6 characters" |}, db)
    else match find (user_where_username name) (users db) with
         | Some _ =>
             (Resolved {| status := 409;
                          json_body := Error "Username already exists" |}, db)
         | None =>
             (Resolved {| status := 201;
                          json_body :=
                            Auth "User registered successfully"
                              (token_at (users_seq db + 1) name env)
                              {| id := users_seq db + 1; username := name;
                                 created_at := clock env |} |},
              registered_db name password env db)
         end.
Proof.
  intros name password. unfold post_register, try_catch.
  fold name password.
  destruct (negb (truthy (b_username (req_body req)))
            || negb (truthy (b_password (req_body req)))); [reflexivity|].
  destruct (String.length name <? 3)%nat; [reflexivity|].
  destruct (String.length password <? 6)%nat; [reflexivity|].
  unfold getUserByUsername, createUser, insert_user, issue_token.
  run_promise.
  destruct (find (user_where_username name) (users db)) eqn:E; [reflexivity|].
  now rewrite (existsb_find_none _ _ E).
Qed.

(** [POST /api/login] for a stored user and the password of its hash. *)
Lemma post_login_run (req : request) (env : Env) (db : Db) (row : user_row) :
  truthy (b_username (req_body req)) = true ->
  truthy (b_password (req_body req)) = true ->
  find (user_where_username (or_empty (b_username (req_body req)))) (users db)
  = Some row ->
  compareSync (or_empty (b_password (req_body req))) (u_password_hash row) = true ->
  post_login req env db
  = (Resolved {| status := 200;
                 json_body := Auth "Login successful"
                                (token_at (u_id row) (u_username row) env)
                                (without_password row) |}, db).
Proof.
  intros Hu Hp Hfind Hcmp. unfold post_login, try_catch.
  rewrite Hu, Hp. cbn [negb orb].
  unfold verifyUser, getUserByUsername, issue_token. run_promise.
  now rewrite Hfind, Hcmp.
Qed.

Lemma user_where_username_true (name : string) (r : user_row) :
  user_where_username name r = true <-> u_username r = name.
Proof. unfold user_where_username. apply String.eqb_eq. Qed.

Lemma find_unregistered (name : string) (db : Db) :
  (forall r, In r (users db) -> u_username r <> name) ->
  find (user_where_username name) (users db) = None.
Proof.
  intros Hfree. apply find_none_iff. intros r Hr.
  apply not_true_is_false. intros Hw.
  apply user_where_username_true in Hw. exact (Hfree r Hr Hw).
Qed.

Lemma find_registered (name : string) (db : Db) :
  (exists r, In r (users db) /\ u_username r = name) ->
  exists row, find (user_where_username name) (users db) = Some row.
Proof.
  intros (r & Hr & Hname).
  apply (find_In_some _ _ r Hr). now apply user_where_username_true.
Qed.

Lemma length_ltb_false (s : string) (k : nat) :
  (k <= String.length s)%nat -> (String.length s <? k)%nat = false.
Proof. intros Hk. apply Nat.ltb_ge. exact Hk. Qed.

(** C3. Register/login round trip: for every username of at least three
    characters and password of at least six that is not registered yet,
    [POST /api/register] answers 201 with a token and stores the user; a
    following [POST /api/login] with the same credentials answers 200 with
    a token and the same user id; and each token, verified under
    [JWT_SECRET] at the instant it was issued and at every instant of the
    86400 seconds that follow, decodes to the id and username of the user
    that the registration created, with that instant of issue and an
    expiry 86400 seconds later. *)
Theorem register_login_roundtrip (req : request) (name password : string)
        (env env' : Env) (db : Db) :
  bcrypt_sound -> jwt_sound ->
  b_username (req_body req) = Some name ->
  b_password (req_body req) = Some password ->
  (3 <= String.length name)%nat ->
  (6 <= String.length password)%nat ->
  (forall r, In r (users db) -> u_username r <> name) ->
  exists token token' user user' row db1,
    post_register req env db
    = (Resolved {| status := 201;
                   json_body := Auth "User registered successfully" token user |},
       db1)
    /\ In row (users db1) /\ u_id row = id user /\ u_username row = name
    /\ username user = name
    /\ post_login req env' db1
       = (Resolved {| status := 200;
                      json_body := Auth "Login successful" token' user' |}, db1)
    /\ id user' = id user /\ username user' = name
    /\ verify token JWT_SECRET (clock env)
       = Some {| c_id := id user; c_username := name;
                 iat := clock env; exp := clock env + 86400 |}
    /\ verify token' JWT_SECRET (clock env')
       = Some {| c_id := id user; c_username := name;
                 iat := clock env'; exp := clock env' + 86400 |}
    /\ (forall later, clock env <= later < clock env + 86400 ->
          verify token JWT_SECRET later
          = Some {| c_id := id user; c_username := name;
                    iat := clock env; exp := clock env + 86400 |})
    /\ (forall later, clock env' <= later < clock env' + 86400 ->
          verify token' JWT_SECRET later
          = Some {| c_id := id user; c_username := name;
                    iat := clock env'; exp := clock env' + 86400 |}).
Proof.
  intros Hbcrypt Hjwt Hname Hpass Hlen3 Hlen6 Hfree.
  assert (Htu : truthy (b_username (req_body req)) = true).
  { rewrite Hname. apply truthy_Some_length. lia. }
  assert (Htp : truthy (b_password (req_body req)) = true).
  { rewrite Hpass. apply truthy_Some_length. lia. }
  pose proof (post_register_run req env db) as Hreg. cbv zeta in Hreg.
  rewrite Htu, Htp in Hreg. cbn [negb orb] in Hreg.
  rewrite Hname, Hpass in Hreg. cbn [or_empty] in Hreg.
  rewrite (length_ltb_false _ _ Hlen3), (length_ltb_false _ _ Hlen6) in Hreg.
  rewrite (find_unregistered name db Hfree) in Hreg.
  set (row := registered_row name password env db).
  assert (Hfind : find (user_where_username
                          (or_empty (b_username (req_body req))))
                    (users (registered_db name password env db)) = Some row).
  { rewrite Hname. cbn [or_empty]. unfold registered_db. cbn [users].
    rewrite find_app_fresh by (now apply find_unregistered).
    fold row.
    assert (Hw : user_where_username name row = true)
      by (now apply user_where_username_true).
    now rewrite Hw. }
  assert (Hcmp : compareSync (or_empty (b_password (req_body req)))
                   (u_password_hash row) = true).
  { rewrite Hpass. apply Hbcrypt. }
  pose proof (post_login_run req env' _ row Htu Htp Hfind Hcmp) as Hlogin.
  exists (token_at (users_seq db + 1) name env),
         (token_at (u_id row) (u_username row) env'),
         {| id := users_seq db + 1; username := name; created_at := clock env |},
         (without_password row), row,
         (registered_db name password env db).
  split; [exact Hreg|].
  split; [unfold registered_db; cbn [users]; apply in_or_app; right; now left|].
  split; [reflexivity|]. split; [reflexivity|]. split; [reflexivity|].
  split; [exact Hlogin|].
  split; [reflexivity|]. split; [reflexivity|].
  assert (Hhorizon : expiresIn_24h = 86400) by reflexivity.
  assert (Hvalid : forall issued later,
             clock issued <= later < clock issued + 86400 ->
             verify (token_at (users_seq db + 1) name issued) JWT_SECRET later
             = Some {| c_id := users_seq db + 1; c_username := name;
                       iat := clock issued; exp := clock issued + 86400 |}).
  { intros issued later Hlater. unfold token_at.
    rewrite <- Hhorizon in Hlater |- * at 1.
    rewrite (Hjwt _ _ _ _ later Hlater). now rewrite Hhorizon. }
  split; [apply Hvalid; lia|]. split; [apply Hvalid; lia|].
  split; intros later Hlater; now apply Hvalid.
Qed.

(** C4. Duplicate registration: when a registration has been answered 201,
    a second call with the same body is answered 409 and leaves the
    database, so the stored users, as it is; and for any username that is
    stored (exact, case-sensitive match), a registration that passes the
    field validation is answered 409, while no registration of that
    username, valid or not, is answered 201 or changes the database. *)
Theorem duplicate_registration :
  (forall (req : request) (env1 env2 : Env) (db db1 : Db) (resp : response),
      post_register req env1 db = (Resolved resp, db1) ->
      status resp = 201 ->
      post_register req env2 db1
      = (Resolved {| status := 409;
                     json_body := Error "Username already exists" |}, db1))
  /\ (forall (req : request) (name password : string) (env : Env) (db : Db),
      (exists r, In r (users db) /\ u_username r = name) ->
      b_username (req_body req) = Some name ->
      b_password (req_body req) = Some password ->
      (3 <= String.length name)%nat ->
      (6 <= String.length password)%nat ->
      post_register req env db
      = (Resolved {| status := 409;
                     json_body := Error "Username already exists" |}, db))
  /\ (forall (req : request) (name : string) (env : Env) (db : Db),
      (exists r, In r (users db) /\ u_username r = name) ->
      b_username (req_body req) = Some name ->
      exists resp,
        post_register req env db = (Resolved resp, db)
        /\ (status resp = 400 \/ status resp = 409)).
Proof.
  split; [|split].
  - intros req env1 env2 db db1 resp Hfirst H201.
    pose proof (post_register_run req env1 db) as Hrun1. cbv zeta in Hrun1.
    pose proof (post_register_run req env2 db1) as Hrun2. cbv zeta in Hrun2.
    rewrite Hrun2. rewrite Hrun1 in Hfirst.
    destruct (negb (truthy (b_username (req_body req)))
              || negb (truthy (b_password (req_body req))));
      [injection Hfirst as <- _; discriminate|].
    destruct (String.length _ <? 3)%nat;
      [injection Hfirst as <- _; discriminate|].
    destruct (String.length _ <? 6)%nat;
      [injection Hfirst as <- _; discriminate|].
    destruct (find _ (users db)) eqn:E;
      [injection Hfirst as <- _; discriminate|].
    injection Hfirst as _ <-.
    unfold registered_db. cbn [users].
    rewrite find_app_fresh by exact E.
    unfold user_where_username, registered_row. cbn [u_username].
    now rewrite String.eqb_refl.
  - intros req name password env db Hstored Hname Hpass Hlen3 Hlen6.
    pose proof (post_register_run req env db) as Hrun. cbv zeta in Hrun.
    rewrite Hrun, Hname, Hpass. cbn [or_empty].
    rewrite !truthy_Some_length by lia. cbn [negb orb].
    rewrite (length_ltb_false _ _ Hlen3), (length_ltb_false _ _ Hlen6).
    destruct (find_registered name db Hstored) as [row ->]. reflexivity.
  - intros req name env db Hstored Hname.
    pose proof (post_register_run req env db) as Hrun. cbv zeta in Hrun.
    rewrite Hrun, Hname. cbn [or_empty].
    destruct (negb (truthy (Some name))
              || negb (truthy (b_password (req_body req))));
      [eexists; split; [reflexivity | now left]|].
    destruct (String.length name <? 3)%nat;
      [eexists; split; [reflexivity | now left]|].
    destruct (String.length _ <? 6)%nat;
      [eexists; split; [reflexivity | now left]|].
    destruct (find_registered name db Hstored) as [row ->].
    eexists; split; [reflexivity | now right].
Qed.

End Accounts.

(* ===================================================================== *)
(** ** The reference instances meet the library contracts                *)
(* ===================================================================== *)

Import Reference Scenario.

Lemma ref_bcrypt_sound : @bcrypt_sound ref_bcrypt.
Proof.
  intros password rounds salt. simpl.
  unfold ref_compareSync, ref_hashSync. apply String.eqb_refl.
Qed.

Lemma decode_encode_positive (p : positive) (rest : string) :
  decode_positive (encode_positive p ++ rest) = Some (p, rest).
Proof.
  induction p as [q IH|q IH|]; simpl; [| |reflexivity]; now rewrite IH.
Qed.

Lemma decode_encode_Z (z : Z) (rest : string) :
  decode_Z (encode_Z z ++ rest) = Some (z, rest).
Proof.
  destruct z as [|p|p]; simpl; [reflexivity| |];
    now rewrite decode_encode_positive.
Qed.

Lemma ref_jwt_sound : @jwt_sound ref_jwt.
Proof.
  intros p secret ttl now later Hlater. simpl.
  unfold ref_verify, ref_sign.
  rewrite !decode_encode_Z.
  assert (Hlt : (later <? now + ttl) = true) by (apply Z.ltb_lt; lia).
  now rewrite Hlt.
Qed.

(** The scenario is a database the application reaches: alice registers,
    bob registers, alice posts a note. *)
Example scenario_reached :
  let db1 := snd (app POST_api_register
                    (request_of None "" (credentials "alice" "secret1"))
                    (env_at 1000) empty_db) in
  let db2 := snd (app POST_api_register
                    (request_of None "" (credentials "bob" "hunter22"))
                    (env_at 1001) db1) in
  db2 = db_registered
  /\ app POST_api_notes
       (request_of (bearer alice_token) ""
          (note_fields (Some "A") (Some "B") None))
       (env_at 1002) db2
     = (Resolved {| status := 201;
                    json_body := Note "Note created successfully"
                                   (Some alice_note) |}, db_scenario).
Proof. vm_compute. split; reflexivity. Qed.

Lemma wf_db_scenario : wf_db db_scenario.
Proof.
  pose proof scenario_reached as [Hreg Hnote]. cbv zeta in Hreg, Hnote.
  replace db_scenario
    with (snd (app POST_api_notes
                 (request_of (bearer alice_token) ""
                    (note_fields (Some "A") (Some "B") None))
                 (env_at 1002) db_registered))
    by (now rewrite <- Hreg, Hnote).
  rewrite <- Hreg. repeat apply app_wf. exact wf_empty_db.
Qed.

Lemma alice_authenticated (i : string) (b : body) :
  authenticated_as (request_of (bearer alice_token) i b) (env_at 1003)
    {| c_id := 1; c_username := "alice"; iat := 1000; exp := 87400 |}.
Proof. split; vm_compute; reflexivity. Qed.

Lemma bob_authenticated (i : string) (b : body) :
  authenticated_as (request_of (bearer bob_token) i b) (env_at 1003)
    {| c_id := 2; c_username := "bob"; iat := 1001; exp := 87401 |}.
Proof. split; vm_compute; reflexivity. Qed.

(* ===================================================================== *)
(** ** The theorems on the scenario                                       *)
(* ===================================================================== *)

(** Bob asks for alice's note 1 and for the absent note 7. *)
Lemma ownership_isolation_scenario :
  (wf_db db_scenario /\ In alice_note (notes db_scenario)
   /\ 2 <> n_user_id alice_note /\ no_such_note db_scenario 7)
  /\ getNoteById (Int 1) 2 (env_at 1003) db_scenario = (Resolved None, db_scenario)
  /\ deleteNote (Int 1) 2 (env_at 1003) db_scenario = (Resolved false, db_scenario)
  /\ delete_notes_id (request_of (bearer bob_token) "1" no_fields)
       (env_at 1003) db_scenario
     = (Resolved not_found_404, db_scenario).
Proof.
  assert (Hin : In alice_note (notes db_scenario)) by (simpl; now left).
  assert (Hother : 2 <> n_user_id alice_note) by (simpl; lia).
  assert (Hmiss : no_such_note db_scenario 7).
  { intros r [<-|[]]. simpl. lia. }
  split; [exact (conj wf_db_scenario (conj Hin (conj Hother Hmiss)))|].
  destruct (ownership_isolation db_scenario alice_note 2 7
              wf_db_scenario Hin Hother Hmiss)
    as (Hget & _ & Hdel & Hroutes).
  split; [exact (proj1 (Hget (env_at 1003)))|].
  split; [exact (proj1 (Hdel (env_at 1003)))|].
  destruct (Hroutes (request_of (bearer bob_token) "" no_fields)
              (env_at 1003) _ "1" "7" (bob_authenticated "" no_fields)
              eq_refl eq_refl eq_refl)
    as (_ & _ & _ & Hdelete & _).
  exact Hdelete.
Defined.

(** No header at all, then a header whose token does not verify. *)
Lemma gate_status_asymmetry_scenario :
  protected GET_api_notes = true
  /\ app GET_api_notes (request_of None "" no_fields) (env_at 1003) db_scenario
     = (Resolved unauthorized_401, db_scenario)
  /\ app GET_api_notes (request_of (bearer "tampered") "" no_fields)
       (env_at 1003) db_scenario
     = (Resolved forbidden_403, db_scenario).
Proof.
  split; [reflexivity|]. split.
  - apply (gate_status_asymmetry GET_api_notes
             (request_of None "" no_fields) (env_at 1003) db_scenario eq_refl).
    reflexivity.
  - apply (proj1 (proj2 (gate_status_asymmetry GET_api_notes
                           (request_of (bearer "tampered") "" no_fields)
                           (env_at 1003) db_scenario eq_refl))
             "tampered"); [reflexivity | discriminate | reflexivity].
Defined.

(** Carol registers at 2000 and logs in at 2005. *)
Lemma register_login_roundtrip_scenario :
  ((3 <= String.length "carol")%nat /\ (6 <= String.length "secret3")%nat
   /\ forall r, In r (users db_scenario) -> u_username r <> "carol")
  /\ exists token token' user user' row db1,
      post_register (request_of None "" (credentials "carol" "secret3"))
        (env_at 2000) db_scenario
      = (Resolved {| status := 201;
                     json_body := Auth "User registered successfully" token user |},
         db1)
      /\ In row (users db1) /\ u_id row = id user /\ u_username row = "carol"
      /\ username user = "carol"
      /\ post_login (request_of None "" (credentials "carol" "secret3"))
           (env_at 2005) db1
         = (Resolved {| status := 200;
                        json_body := Auth "Login successful" token' user' |}, db1)
      /\ id user' = id user /\ username user' = "carol"
      /\ verify token JWT_SECRET 2000
         = Some {| c_id := id user; c_username := "carol";
                   iat := 2000; exp := 2000 + 86400 |}
      /\ verify token' JWT_SECRET 2005
         = Some {| c_id := id user; c_username := "carol";
                   iat := 2005; exp := 2005 + 86400 |}
      /\ (forall later, 2000 <= later < 2000 + 86400 ->
            verify token JWT_SECRET later
            = Some {| c_id := id user; c_username := "carol";
                      iat := 2000; exp := 2000 + 86400 |})
      /\ (forall later, 2005 <= later < 2005 + 86400 ->
            verify token' JWT_SECRET later
            = Some {| c_id := id user; c_username := "carol";
                      iat := 2005; exp := 2005 + 86400 |}).
Proof.
  assert (Hfree : forall r, In r (users db_scenario) -> u_username r <> "carol").
  { intros r [<-|[<-|[]]]; discriminate. }
  split; [split; [simpl; lia | split; [simpl; lia | exact Hfree]]|].
  apply (register_login_roundtrip
           (request_of None "" (credentials "carol" "secret3"))
           "carol" "secret3" (env_at 2000) (env_at 2005) db_scenario
           ref_bcrypt_sound ref_jwt_sound eq_refl eq_refl);
    [simpl; lia | simpl; lia | exact Hfree].
Defined.

(** Alice registers twice. *)
Lemma duplicate_registration_scenario :
  post_register (request_of None "" (credentials "alice" "secret1"))
    (env_at 1000) empty_db
  = (Resolved {| status := 201;
                 json_body := Auth "User registered successfully" alice_token
                                {| id := 1; username := "alice";
                                   created_at := 1000 |} |},
     registered_db "alice" "secret1" (env_at 1000) empty_db)
  /\ post_register (request_of None "" (credentials "alice" "secret1"))
       (env_at 1001) (registered_db "alice" "secret1" (env_at 1000) empty_db)
     = (Resolved {| status := 409;
                    json_body := Error "Username already exists" |},
        registered_db "alice" "secret1" (env_at 1000) empty_db).
Proof.
  assert (Hfirst :
    post_register (request_of None "" (credentials "alice" "secret1"))
      (env_at 1000) empty_db
    = (Resolved {| status := 201;
                   json_body := Auth "User registered successfully" alice_token
                                  {| id := 1; username := "alice";
                                     created_at := 1000 |} |},
       registered_db "alice" "secret1" (env_at 1000) empty_db))
    by reflexivity.
  split; [exact Hfirst|].
  exact (proj1 duplicate_registration _ (env_at 1000) (env_at 1001) _ _ _
           Hfirst eq_refl).
Defined.

(** Alice updates her note eight seconds after she created it. *)
Lemma update_frame_scenario :
  (wf_db db_scenario /\ owns db_scenario 1 alice_note)
  /\ exists n' db2,
      updateNote (Int 1) 1 "A2" "B2" "x,y" (env_at 1010) db_scenario
      = (Resolved (Some n'), db2)
      /\ n_title n' = "A2" /\ n_content n' = "B2" /\ n_tags n' = "x,y"
      /\ n_updated_at n' = 1010 /\ n_created_at n' = 1002
      /\ n_id n' = 1 /\ n_user_id n' = 1.
Proof.
  assert (Hown : owns db_scenario 1 alice_note)
    by (split; [simpl; now left | reflexivity]).
  split; [split; [exact wf_db_scenario | exact Hown]|].
  destruct (proj1 (proj2 update_frame) db_scenario 1 alice_note
              "A2" "B2" "x,y" (env_at 1010) wf_db_scenario Hown)
    as (n' & db2 & Hrun & Ht & Hc & Hg & Hu & Hcr & Hid & Huid & _).
  exists n', db2. repeat split; assumption.
Defined.

(** Alice posts a note without a title. *)
Lemma missing_field_one_message_scenario :
  truthy (b_title (note_fields None (Some "B") None)) = false
  /\ post_notes (request_of (bearer alice_token) "" (note_fields None (Some "B") None))
       (env_at 1003) db_scenario
     = (Resolved {| status := 400;
                    json_body := Error "Title and content are required" |},
        db_scenario).
Proof.
  split; [reflexivity|].
  exact (proj1 (missing_field_one_message _ (env_at 1003) db_scenario _
                  (alice_authenticated "" (note_fields None (Some "B") None))
                  (or_introl eq_refl))).
Defined.

(** Alice deletes her note twice. *)
Lemma deleteNote_idempotent_scenario :
  owns db_scenario 1 alice_note
  /\ exists db1,
      deleteNote (Int 1) 1 (env_at 1003) db_scenario = (Resolved true, db1)
      /\ ~ In alice_note (notes db1)
      /\ deleteNote (Int 1) 1 (env_at 1004) db1 = (Resolved false, db1).
Proof.
  assert (Hown : owns db_scenario 1 alice_note)
    by (split; [simpl; now left | reflexivity]).
  split; [exact Hown|].
  exact (proj1 deleteNote_idempotent db_scenario 1 alice_note
           (env_at 1003) (env_at 1004) Hown).
Defined.

(** Alice's token after the scheme word [Basic], and sent bare. *)
Lemma gate_ignores_scheme_scenario :
  (is_word "Basic" = true /\ is_word alice_token = true
   /\ protected GET_api_notes = true)
  /\ app GET_api_notes
       (with_authorization (Some ("Basic" ++ " " ++ alice_token)%string)
          (request_of None "" no_fields)) (env_at 1003) db_scenario
     = app GET_api_notes
         (with_authorization (Some ("Bearer " ++ alice_token)%string)
            (request_of None "" no_fields)) (env_at 1003) db_scenario
  /\ authenticateToken (request_of (Some alice_token) "" no_fields)
       (fun _ => res_json (Message "reached")) (env_at 1003) db_scenario
     = (Resolved unauthorized_401, db_scenario).
Proof.
  split; [repeat split; vm_compute; reflexivity|].
  destruct (@gate_ignores_scheme ref_bcrypt ref_jwt)
    as (_ & Hbare & Hscheme & _).
  split.
  - apply Hscheme; reflexivity.
  - apply (Hbare _ alice_token); vm_compute; reflexivity.
Defined.

(** Alice sends [PUT] and [DELETE] for the id [abc]. *)
Lemma nan_id_not_found_scenario :
  parseInt "abc" = NaN
  /\ put_notes_id (request_of (bearer alice_token) "abc"
                     (note_fields (Some "A2") (Some "B2") None))
       (env_at 1003) db_scenario
     = (Resolved not_found_404, db_scenario)
  /\ delete_notes_id (request_of (bearer alice_token) "abc"
                        (note_fields (Some "A2") (Some "B2") None))
       (env_at 1003) db_scenario
     = (Resolved not_found_404, db_scenario).
Proof.
  split; [reflexivity|].
  destruct (nan_id_not_found
              (request_of (bearer alice_token) "abc"
                 (note_fields (Some "A2") (Some "B2") None))
              (env_at 1003) db_scenario _
              (alice_authenticated "abc" (note_fields (Some "A2") (Some "B2") None))
              eq_refl) as [Hput Hdelete].
  split; [exact (Hput eq_refl) | exact Hdelete].
Defined.

(* ===================================================================== *)
(** ** Where the code departs from the written specification             *)
(* ===================================================================== *)

(** Against C5 as written: alice creates her note and updates it within
    the same second of the clock; the update succeeds and keeps
    [created_at], but [updated_at] is not strictly greater than it. *)
Lemma update_in_the_second_of_creation :
  let updated :=
    {| n_id := 1; n_user_id := 1; n_title := "A2"; n_content := "B2";
       n_tags := ""; n_created_at := 1002; n_updated_at := 1002 |} in
  createNote 1 "A" "B" "" (env_at 1002) db_registered
  = (Resolved (Some alice_note), db_scenario)
  /\ fst (updateNote (Int (n_id alice_note)) 1 "A2" "B2" "" (env_at 1002)
            db_scenario)
     = Resolved (Some updated)
  /\ ~ (n_created_at alice_note < n_updated_at updated).
Proof.
  split; [reflexivity|]. split; [reflexivity|]. simpl. lia.
Qed.

(** Against C6 as written: a request that lacks only the title and a
    request that lacks only the content are answered with one and the same
    message, on [POST /api/notes] and on [PUT /api/notes/:id]; the message
    does not tell which field is missing. *)
Lemma missing_title_and_missing_content_answered_alike :
  let no_title :=
    request_of (bearer alice_token) "1" (note_fields None (Some "B") None) in
  let no_content :=
    request_of (bearer alice_token) "1" (note_fields (Some "A") None None) in
  let answer :=
    (Resolved {| status := 400;
                 json_body := Error "Title and content are required" |},
     db_scenario) in
  post_notes no_title (env_at 1003) db_scenario = answer
  /\ post_notes no_content (env_at 1003) db_scenario = answer
  /\ put_notes_id no_title (env_at 1003) db_scenario = answer
  /\ put_notes_id no_content (env_at 1003) db_scenario = answer.
Proof. vm_compute. repeat split; reflexivity. Qed.

(** Against C10 as written: the path parameter [1abc] is not numeric, yet
    [parseInt] reads it as 1, so [PUT /api/notes/1abc] updates alice's
    note 1 and answers 200, and [DELETE /api/notes/1abc] removes it and
    answers 200. *)
Lemma digit_prefixed_id_reaches_note :
  let updated :=
    {| n_id := 1; n_user_id := 1; n_title := "A2"; n_content := "B2";
       n_tags := ""; n_created_at := 1002; n_updated_at := 1003 |} in
  is_numeric "1abc" = false
  /\ parseInt "1abc" = Int 1
  /\ put_notes_id (request_of (bearer alice_token) "1abc"
                     (note_fields (Some "A2") (Some "B2") None))
       (env_at 1003) db_scenario
     = (Resolved {| status := 200;
                    json_body := Note "Note updated successfully" (Some updated) |},
        {| users := users db_scenario; notes := [updated];
           users_seq := 2; notes_seq := 1 |})
  /\ delete_notes_id (request_of (bearer alice_token) "1abc" no_fields)
       (env_at 1003) db_scenario
     = (Resolved {| status := 200;
                    json_body := Message "Note deleted successfully" |},
        {| users := users db_scenario; notes := [];
           users_seq := 2; notes_seq := 1 |}).
Proof. vm_compute. repeat split; reflexivity. Qed.

(* ===================================================================== *)
(** ** The start-up address                                               *)
(* ===================================================================== *)

Import Network Mobile Effects.

Lemma scan_ifaces_find (ifaces : list iface) :
  scan_ifaces ifaces = option_map address (find is_external_ipv4 ifaces).
Proof.
  induction ifaces as [|i rest IH]; simpl; [reflexivity|].
  now destruct (is_external_ipv4 i).
Qed.

Lemma find_app_split {A : Type} (p : A -> bool) (l1 l2 : list A) :
  find p (l1 ++ l2)
  = match find p l1 with Some x => Some x | None => find p l2 end.
Proof.
  induction l1 as [|a l1 IH]; simpl; [reflexivity|].
  now destruct (p a).
Qed.

Lemma is_external_ipv4_true (i : iface) :
  is_external_ipv4 i = true <-> family i = "IPv4" /\ internal i = false.
Proof.
  unfold is_external_ipv4.
  rewrite andb_true_iff, negb_true_iff, String.eqb_eq. reflexivity.
Qed.

(** [getLocalIpAddress] returns the address of the first interface entry,
    in the order of the names and of the entries under each name, whose
    family is IPv4 and which is not internal; it returns null exactly when
    every IPv4 entry is internal (or there is none). *)
Theorem getLocalIpAddress_first_external
        (interfaces : list (string * list iface)) :
  getLocalIpAddress interfaces
  = option_map address
      (find is_external_ipv4 (List.concat (map snd interfaces)))
  /\ (forall a,
        getLocalIpAddress interfaces = Some a ->
        exists name ifaces i,
          In (name, ifaces) interfaces /\ In i ifaces
          /\ family i = "IPv4" /\ internal i = false /\ address i = a)
  /\ (getLocalIpAddress interfaces = None <->
      forall name ifaces i,
        In (name, ifaces) interfaces -> In i ifaces ->
        family i = "IPv4" -> internal i = true).
Proof.
  assert (Hfind : getLocalIpAddress interfaces
                  = option_map address
                      (find is_external_ipv4 (List.concat (map snd interfaces)))).
  { induction interfaces as [|[name ifaces] rest IH]; simpl; [reflexivity|].
    rewrite find_app_split, scan_ifaces_find, IH.
    now destruct (find is_external_ipv4 ifaces). }
  split; [exact Hfind|]. rewrite Hfind. split.
  - intros a Ha.
    destruct (find is_external_ipv4 (List.concat (map snd interfaces)))
      as [i|] eqn:E; [|discriminate].
    injection Ha as <-.
    apply find_some in E as [Hin Hext].
    apply in_concat in Hin as (ifaces & Hifaces & Hin).
    apply in_map_iff in Hifaces as ([name ifaces'] & <- & Hentry).
    apply is_external_ipv4_true in Hext as [Hfam Hint].
    exists name, ifaces', i. auto.
  - split.
    + intros Hnone name ifaces i Hentry Hin Hfam.
      destruct (find is_external_ipv4 (List.concat (map snd interfaces)))
        as [j|] eqn:E; [discriminate|].
      assert (Hcat : In i (List.concat (map snd interfaces))).
      { apply in_concat. exists ifaces. split; [|exact Hin].
        apply in_map_iff. now exists (name, ifaces). }
      pose proof (find_none _ _ E i Hcat) as Hext.
      destruct (internal i) eqn:Hint; [reflexivity|].
      assert (is_external_ipv4 i = true)
        by (now apply is_external_ipv4_true).
      congruence.
    + intros Hall.
      destruct (find is_external_ipv4 (List.concat (map snd interfaces)))
        as [j|] eqn:E; [|reflexivity].
      apply find_some in E as [Hin Hext].
      apply in_concat in Hin as (ifaces & Hifaces & Hin).
      apply in_map_iff in Hifaces as ([name ifaces'] & <- & Hentry).
      apply is_external_ipv4_true in Hext as [Hfam Hint].
      rewrite (Hall name ifaces' j Hentry Hin Hfam) in Hint. discriminate.
Qed.

(* ===================================================================== *)
(** ** The client's list of tags                                          *)
(* ===================================================================== *)

Lemma split_length (sep : ascii) (s : string) :
  List.length (split sep s) = S (occurrences sep s).
Proof.
  induction s as [|c s IH]; simpl; [reflexivity|].
  destruct (Ascii.eqb c sep); simpl; [now rewrite IH|].
  destruct (split sep s) as [|seg segs] eqn:E; simpl in *; [discriminate|].
  exact IH.
Qed.

Lemma split_segments_free (sep : ascii) (s seg : string) :
  In seg (split sep s) -> contains sep seg = false.
Proof.
  revert seg. induction s as [|c s IH]; simpl; intros seg Hin.
  - destruct Hin as [<-|[]]. reflexivity.
  - destruct (Ascii.eqb c sep) eqn:Ec.
    + destruct Hin as [<-|Hin]; [reflexivity | now apply IH].
    + destruct (split sep s) as [|first segs] eqn:E.
      * destruct Hin as [<-|[]]. simpl. now rewrite Ec.
      * destruct Hin as [<-|Hin].
        -- simpl. rewrite Ec. apply IH. now left.
        -- apply IH. now right.
Qed.

Lemma trimLeft_free (sep : ascii) (s : string) :
  contains sep s = false -> contains sep (trimLeft s) = false.
Proof.
  induction s as [|c s IH]; simpl; [trivial|].
  intros Hs. apply orb_false_iff in Hs as [Hc Hs].
  destruct (Mobile.is_whitespace c); [now apply IH|].
  simpl. now rewrite Hc, Hs.
Qed.

Lemma trimRight_free (sep : ascii) (s : string) :
  contains sep s = false -> contains sep (trimRight s) = false.
Proof.
  induction s as [|c s IH]; simpl; [trivial|].
  intros Hs. apply orb_false_iff in Hs as [Hc Hs].
  specialize (IH Hs).
  destruct (trimRight s) as [|d kept].
  - destruct (Mobile.is_whitespace c); [reflexivity|].
    simpl. now rewrite Hc.
  - change (contains sep (String c (String d kept)) = false).
    simpl. simpl in IH. now rewrite Hc, IH.
Qed.

Lemma trimLeft_first (s : string) (c : ascii) :
  first_char (trimLeft s) = Some c -> Mobile.is_whitespace c = false.
Proof.
  induction s as [|d s IH]; simpl; [discriminate|].
  destruct (Mobile.is_whitespace d) eqn:Ed; [exact IH|].
  simpl. now intros [= <-].
Qed.

Lemma trimRight_first (s : string) (c : ascii) :
  first_char (trimRight s) = Some c -> first_char s = Some c.
Proof.
  destruct s as [|d s]; simpl; [discriminate|].
  destruct (trimRight s); [destruct (Mobile.is_whitespace d)|];
    simpl; trivial; discriminate.
Qed.

Lemma trimRight_last (s : string) (c : ascii) :
  last_char (trimRight s) = Some c -> Mobile.is_whitespace c = false.
Proof.
  induction s as [|d s IH]; simpl; [discriminate|].
  destruct (trimRight s) as [|e kept].
  - destruct (Mobile.is_whitespace d) eqn:Ed; simpl; [discriminate|].
    now intros [= <-].
  - intros Hlast. apply IH. exact Hlast.
Qed.

(** [Note.getTagsList]: no tags for the empty string; otherwise one tag
    for each comma-separated piece, that is one more than there are
    commas, empty pieces included; no tag contains a comma, and none
    starts or ends with white space. *)
Theorem getTagsList_pieces (tags : string) :
  (tags = "" -> getTagsList tags = [])
  /\ (tags <> "" ->
      List.length (getTagsList tags) = S (occurrences ","%char tags))
  /\ (forall tag, In tag (getTagsList tags) ->
        contains ","%char tag = false
        /\ (forall c, first_char tag = Some c -> Mobile.is_whitespace c = false)
        /\ (forall c, last_char tag = Some c -> Mobile.is_whitespace c = false)).
Proof.
  unfold getTagsList. split; [now intros ->|]. split.
  - intros Hne. destruct (String.eqb_spec tags ""); [contradiction|].
    now rewrite length_map, split_length.
  - intros tag Hin.
    destruct (String.eqb_spec tags ""); [contradiction|].
    apply in_map_iff in Hin as (piece & <- & Hpiece).
    apply split_segments_free in Hpiece.
    unfold trim. split; [|split].
    + now apply trimRight_free, trimLeft_free.
    + intros c Hc. apply trimRight_first in Hc.
      now apply trimLeft_first in Hc.
    + intros c Hc. now apply trimRight_last in Hc.
Qed.

Example getTagsList_shopping :
  getTagsList "personal, shopping" = ["personal"; "shopping"].
Proof. reflexivity. Qed.

Example getTagsList_blank_pieces :
  getTagsList "a, ,b," = ["a"; ""; "b"; ""].
Proof. reflexivity. Qed.

(** A witness: a note with two commas has three tags. *)
Lemma getTagsList_pieces_scenario :
  "work, urgent ,x" <> ""
  /\ List.length (getTagsList "work, urgent ,x") = 3%nat.
Proof.
  split; [discriminate|].
  exact (proj1 (proj2 (getTagsList_pieces "work, urgent ,x"))
           ltac:(discriminate)).
Defined.

(* ===================================================================== *)
(** ** What the routes write                                              *)
(* ===================================================================== *)

Section Writes.
Context `{Bcrypt} `{Jwt}.

Lemma gate_cases (req : request) (env : Env) :
  truthy (token_of (headers_authorization req)) = false
  \/ (truthy (token_of (headers_authorization req)) = true
      /\ verify (or_empty (token_of (headers_authorization req)))
           JWT_SECRET (clock env) = None)
  \/ exists u, authenticated_as req env u.
Proof.
  unfold authenticated_as.
  destruct (truthy (token_of (headers_authorization req))); [|now left].
  destruct (verify _ JWT_SECRET (clock env)) as [u|]; [|now right; left].
  right; right. now exists u.
Qed.

Lemma authenticated_as_unique (req : request) (env : Env) (u v : claims) :
  authenticated_as req env u -> authenticated_as req env v -> u = v.
Proof. intros [_ Hu] [_ Hv]. congruence. Qed.

(** What a protected route writes is what its handler writes for the user
    of the token; when the gate turns the request down nothing is
    written. *)
Lemma gated_write (req : request) (handler : claims -> Promise response)
      (env : Env) (db : Db) :
  (forall u, authenticated_as req env u ->
             write env db (Some (c_id u)) (snd (handler u env db))) ->
  snd (authenticateToken req handler env db) = db
  \/ exists u, authenticated_as req env u
               /\ write env db (Some (c_id u))
                    (snd (authenticateToken req handler env db)).
Proof.
  intros Hhandler.
  destruct (gate_cases req env) as [Hmiss|[[Ht Hv]|[u Hu]]].
  - left. now rewrite authenticateToken_missing.
  - left. now rewrite authenticateToken_invalid.
  - right. exists u. split; [exact Hu|].
    destruct Hu as [Ht Hv].
    rewrite (authenticateToken_valid _ _ _ _ u Ht Hv).
    apply Hhandler. now split.
Qed.

Lemma truthy_not_empty (v : option string) :
  truthy v = true -> or_empty v <> "".
Proof. intros Hv. now apply truthy_or_empty in Hv. Qed.

Lemma post_notes_write (req : request) (env : Env) (db : Db) (u : claims) :
  write env db (Some (c_id u))
    (snd (try_catch
            (let title := b_title (req_body req) in
             let content := b_content (req_body req) in
             let tags := b_tags (req_body req) in
             if negb (truthy title) || negb (truthy content)
             then res_status_json 400 (Error "Title and content are required")
             else
               let* note := createNote (c_id u) (or_empty title)
                              (or_empty content)
                              (if truthy tags then or_empty tags else "") in
               res_status_json 201 (Note "Note created successfully" note))
            internal_server_error env db)).
Proof.
  cbv zeta. unfold try_catch.
  destruct (truthy (b_title (req_body req))) eqn:Ht;
    [|apply write_nothing].
  destruct (truthy (b_content (req_body req))) eqn:Hc;
    [|apply write_nothing].
  cbn [negb orb].
  apply (write_insert_note env db (c_id u));
    now apply truthy_not_empty.
Qed.

Lemma put_notes_id_write (req : request) (env : Env) (db : Db) (u : claims) :
  authenticated_as req env u ->
  write env db (Some (c_id u)) (snd (put_notes_id req env db)).
Proof.
  intros Hu.
  destruct (truthy (b_title (req_body req)) && truthy (b_content (req_body req)))
    eqn:Hok.
  - rewrite (put_notes_id_valid _ _ _ u Hu Hok).
    apply andb_true_iff in Hok as [Ht Hc].
    destruct (find (note_where (parseInt (params_id req)) (c_id u)) (notes db))
      as [x|] eqn:E.
    + rewrite (updateNote_found _ _ _ _ _ _ _ x E). cbn [snd].
      apply (write_update_note env db (c_id u));
        now apply truthy_not_empty.
    + rewrite (updateNote_absent _ _ _ _ _ _ _ E). apply write_nothing.
  - rewrite (put_notes_id_invalid _ _ _ u Hu Hok). apply write_nothing.
Qed.

Lemma delete_notes_id_write (req : request) (env : Env) (db : Db) (u : claims) :
  authenticated_as req env u ->
  write env db (Some (c_id u)) (snd (delete_notes_id req env db)).
Proof.
  intros Hu. rewrite (delete_notes_id_authenticated _ _ _ u Hu).
  unfold deleteNote, getNoteById. run_promise.
  destruct (find _ (notes db)) as [x|]; [|apply write_nothing].
  destruct (0 <? _)%nat;
    apply (write_delete_note env db (c_id u) (parseInt (params_id req))).
Qed.

Lemma changePassword_write (userId : Z) (old new : string)
      (env : Env) (db : Db) :
  write env db (Some userId) (snd (changePassword userId old new env db)).
Proof.
  unfold changePassword, select_user_by_id. run_promise.
  destruct (find (user_where_id userId) (users db)) as [r|];
    [|apply write_nothing].
  destruct (compareSync old (u_password_hash r)); simpl;
    [|apply write_nothing].
  apply (write_password env db userId).
Qed.

Lemma deleteUserAccount_write (userId : Z) (password : string)
      (env : Env) (db : Db) :
  write env db (Some userId) (snd (deleteUserAccount userId password env db)).
Proof.
  unfold deleteUserAccount, select_user_by_id. run_promise.
  destruct (find (user_where_id userId) (users db)) as [r|];
    [|apply write_nothing].
  destruct (compareSync password (u_password_hash r)); simpl;
    [|apply write_nothing].
  apply (write_delete_account env db userId).
Qed.

Lemma try_catch_write (block : Promise response) (env : Env) (db : Db)
      (who : option Z) :
  write env db who (snd (block env db)) ->
  write env db who (snd (try_catch block internal_server_error env db)).
Proof.
  unfold try_catch. now destruct (block env db) as [[resp|err] db'].
Qed.

Lemma await_write {A : Type} (p : Promise A) (k : A -> Promise response)
      (env : Env) (db : Db) (who : option Z) :
  write env db who (snd (p env db)) ->
  (forall a db', snd (k a env db') = db') ->
  write env db who (snd (await p k env db)).
Proof.
  intros Hp Hk. unfold await.
  destruct (p env db) as [[a|err] db']; simpl in *; [|exact Hp].
  now rewrite Hk.
Qed.

Lemma post_register_write (req : request) (env : Env) (db : Db) :
  write env db None (snd (post_register req env db)).
Proof.
  pose proof (post_register_run req env db) as Hrun. cbv zeta in Hrun.
  rewrite Hrun.
  destruct (negb (truthy (b_username (req_body req)))
            || negb (truthy (b_password (req_body req))));
    [apply write_nothing|].
  destruct (String.length _ <? 3)%nat eqn:E3; [apply write_nothing|].
  destruct (String.length _ <? 6)%nat; [apply write_nothing|].
  destruct (find _ (users db)) eqn:E; [apply write_nothing|].
  cbn [snd]. apply write_register.
  - now apply Nat.ltb_ge in E3.
  - intros r Hr Hname.
    pose proof (find_none _ _ E r Hr) as Hw.
    apply user_where_username_true in Hname. congruence.
Qed.

Lemma post_login_db (req : request) (env : Env) (db : Db) :
  snd (post_login req env db) = db.
Proof.
  unfold post_login, try_catch.
  destruct (negb (truthy (b_username (req_body req)))
            || negb (truthy (b_password (req_body req)))); [reflexivity|].
  unfold await.
  pose proof (verifyUser_db (or_empty (b_username (req_body req)))
                (or_empty (b_password (req_body req))) env db) as Hdb.
  destruct (verifyUser _ _ env db) as [[[user|]|err] db']; simpl in *;
    now subst.
Qed.

(** Every route writes one of the writes of [write]: the routes without a
    token on nobody's behalf, a protected route on behalf of the user of
    the token, or not at all. *)
Lemma app_write (r : route) (req : request) (env : Env) (db : Db) :
  (protected r = false -> write env db None (snd (app r req env db)))
  /\ (protected r = true ->
      snd (app r req env db) = db
      \/ exists u, authenticated_as req env u
                   /\ write env db (Some (c_id u)) (snd (app r req env db))).
Proof.
  destruct r; simpl; (split; [intros Hp|intros Hp]); try discriminate.
  - apply post_register_write.
  - rewrite post_login_db. apply write_nothing.
  - apply gated_write. intros u _. apply try_catch_write. apply write_nothing.
  - apply gated_write. intros u _. apply post_notes_write.
  - destruct (gate_cases req env) as [Hmiss|[[Ht Hv]|[u Hu]]].
    + left. unfold put_notes_id. now rewrite authenticateToken_missing.
    + left. unfold put_notes_id. now rewrite authenticateToken_invalid.
    + right. exists u. split; [exact Hu | now apply put_notes_id_write].
  - destruct (gate_cases req env) as [Hmiss|[[Ht Hv]|[u Hu]]].
    + left. unfold delete_notes_id. now rewrite authenticateToken_missing.
    + left. unfold delete_notes_id. now rewrite authenticateToken_invalid.
    + right. exists u. split; [exact Hu | now apply delete_notes_id_write].
  - apply gated_write. intros u _. apply try_catch_write. cbv zeta.
    destruct (negb (truthy (b_oldPassword (req_body req)))
              || negb (truthy (b_newPassword (req_body req))));
      [apply write_nothing|].
    destruct (String.length _ <? 6)%nat; [apply write_nothing|].
    destruct (_ =? _)%string; [apply write_nothing|].
    apply await_write; [apply changePassword_write|].
    now intros [|] db'.
  - apply gated_write. intros u _. apply try_catch_write. cbv zeta.
    destruct (negb (truthy (b_password (req_body req))));
      [apply write_nothing|].
    apply await_write; [apply deleteUserAccount_write|].
    now intros [|] db'.
Qed.

End Writes.

(* ===================================================================== *)
(** ** What no write does                                                 *)
(* ===================================================================== *)

Lemma filter_map_fixed {A : Type} (p : A -> bool) (f : A -> A) (l : list A) :
  (forall r, p (f r) = p r) -> (forall r, p r = true -> f r = r) ->
  filter p (map f l) = filter p l.
Proof.
  intros Hp Hf. induction l as [|a l IH]; simpl; [reflexivity|].
  rewrite Hp. destruct (p a) eqn:Ea; [|exact IH].
  now rewrite (Hf a Ea), IH.
Qed.

Lemma filter_snoc_out {A : Type} (p : A -> bool) (l : list A) (x : A) :
  p x = false -> filter p (l ++ [x]) = filter p l.
Proof.
  intros Hx. rewrite filter_app. simpl. rewrite Hx. apply app_nil_r.
Qed.

Lemma filter_filter_kept {A : Type} (p q : A -> bool) (l : list A) :
  (forall r, p r = true -> q r = true) ->
  filter p (filter q l) = filter p l.
Proof.
  intros Hpq. induction l as [|a l IH]; simpl; [reflexivity|].
  destruct (q a) eqn:Eq; simpl.
  - now rewrite IH.
  - destruct (p a) eqn:Ep; [|exact IH].
    rewrite (Hpq a Ep) in Eq. discriminate.
Qed.

Section WriteFacts.
Context `{Bcrypt}.

(** The counters never go down. *)
Lemma write_seq (env : Env) (db db' : Db) (who : option Z) :
  write env db who db' ->
  users_seq db <= users_seq db' /\ notes_seq db <= notes_seq db'.
Proof. intros Hw. destruct Hw; simpl; lia. Qed.

(** A note after a write is a note from before, with its id, owner and
    creation time, or it carries the next id of the counter. *)
Lemma write_note_origin (env : Env) (db db' : Db) (who : option Z)
      (r : note_row) :
  write env db who db' -> In r (notes db') ->
  (exists r0, In r0 (notes db) /\ n_id r0 = n_id r
              /\ n_user_id r0 = n_user_id r
              /\ n_created_at r0 = n_created_at r)
  \/ n_id r = notes_seq db + 1.
Proof.
  intros Hw Hin. destruct Hw; simpl in Hin.
  - left. now exists r.
  - left. now exists r.
  - apply in_app_or in Hin as [Hin|[<-|[]]]; [left; now exists r|].
    right. reflexivity.
  - apply in_map_iff in Hin as (r0 & <- & Hin). left. exists r0.
    split; [exact Hin|]. now destruct (note_where noteId u r0).
  - apply filter_In in Hin as [Hin _]. left. now exists r.
  - left. now exists r.
  - apply filter_In in Hin as [Hin _]. left. now exists r.
Qed.

(** A user after a write is a user from before, with its id and username,
    or it carries the next id of the counter. *)
Lemma write_user_origin (env : Env) (db db' : Db) (who : option Z)
      (r : user_row) :
  write env db who db' -> In r (users db') ->
  (exists r0, In r0 (users db) /\ u_id r0 = u_id r
              /\ u_username r0 = u_username r)
  \/ u_id r = users_seq db + 1.
Proof.
  intros Hw Hin. destruct Hw; simpl in Hin.
  - left. now exists r.
  - apply in_app_or in Hin as [Hin|[<-|[]]]; [left; now exists r|].
    right. reflexivity.
  - left. now exists r.
  - left. now exists r.
  - left. now exists r.
  - apply in_map_iff in Hin as (r0 & <- & Hin). left. exists r0.
    split; [exact Hin|]. now destruct (user_where_id u r0).
  - apply filter_In in Hin as [Hin _]. left. now exists r.
Qed.

(** A write on behalf of a user leaves the notes of all others, and the
    rows of all other users, as they are. *)
Lemma write_frame (env : Env) (db db' : Db) (u : Z) :
  write env db (Some u) db' ->
  notes_of_others u db' = notes_of_others u db
  /\ filter (fun r => negb (user_where_id u r)) (users db')
     = filter (fun r => negb (user_where_id u r)) (users db).
Proof.
  intros Hw. unfold notes_of_others.
  inversion Hw; subst; simpl; split; try reflexivity.
  - apply filter_snoc_out. simpl. now rewrite Z.eqb_refl.
  - apply filter_map_fixed.
    + intros r. now destruct (note_where noteId u r).
    + intros r Hr. destruct (note_where noteId u r) eqn:Hw'; [|reflexivity].
      apply note_where_true in Hw' as [_ Hown].
      apply negb_true_iff, Z.eqb_neq in Hr. contradiction.
  - apply filter_filter_kept. intros r Hr.
    apply negb_true_iff. unfold note_where.
    apply negb_true_iff in Hr. rewrite Hr. apply andb_false_r.
  - apply filter_map_fixed.
    + intros r. destruct (user_where_id u r) eqn:E; [|now rewrite E].
      unfold user_where_id in *. simpl. now rewrite E.
    + intros r Hr. apply negb_true_iff in Hr. now rewrite Hr.
  - now apply filter_filter_kept.
  - now apply filter_filter_kept.
Qed.

(** A write on nobody's behalf leaves the notes as they are. *)
Lemma write_anonymous (env : Env) (db db' : Db) :
  write env db None db' ->
  notes db' = notes db /\ notes_seq db' = notes_seq db
  /\ (forall row, In row (users db) -> In row (users db')).
Proof.
  intros Hw. inversion Hw; subst; simpl; repeat split; auto.
  intros row Hrow. apply in_or_app. now left.
Qed.

(** A write lets only validated rows in. *)
Lemma write_validated (env : Env) (db db' : Db) (who : option Z) :
  write env db who db' ->
  Forall validated_note (notes db) /\ Forall validated_user (users db) ->
  Forall validated_note (notes db') /\ Forall validated_user (users db').
Proof.
  intros Hw [Hn Hu]. destruct Hw; simpl; split; auto.
  - apply Forall_app. split; [exact Hu|]. now repeat constructor.
  - apply Forall_app. split; [exact Hn|].
    constructor; [|constructor]. now split.
  - apply Forall_map. eapply Forall_impl; [|exact Hn].
    intros r Hr. destruct (note_where noteId u r); [now split | exact Hr].
  - now apply Forall_filter.
  - apply Forall_map. eapply Forall_impl; [|exact Hu].
    intros r Hr. now destruct (user_where_id u r).
  - now apply Forall_filter.
  - now apply Forall_filter.
Qed.

End WriteFacts.

(* ===================================================================== *)
(** ** Frames and invariants of the routes                                *)
(* ===================================================================== *)

Section RouteFrames.
Context `{Bcrypt} `{Jwt}.

Lemma app_is_write (r : route) (req : request) (env : Env) (db : Db) :
  exists who, write env db who (snd (app r req env db)).
Proof.
  destruct (app_write r req env db) as [Hopen Hgated].
  destruct (protected r).
  - destruct (Hgated eq_refl) as [->|(u & _ & Hw)].
    + exists None. apply write_nothing.
    + now exists (Some (c_id u)).
  - exists None. now apply Hopen.
Qed.

(** A protected route, called with the token of a user, changes no note
    of any other user and no row of any other user: the notes of the
    others and the rows of the others are the same lists before and
    after, whatever the path parameter and the body. *)
Theorem protected_routes_frame (r : route) (req : request) (env : Env)
        (db : Db) (u : claims) :
  protected r = true ->
  authenticated_as req env u ->
  notes_of_others (c_id u) (snd (app r req env db))
  = notes_of_others (c_id u) db
  /\ filter (fun row => negb (user_where_id (c_id u) row))
       (users (snd (app r req env db)))
     = filter (fun row => negb (user_where_id (c_id u) row)) (users db).
Proof.
  intros Hp Hu.
  destruct (proj2 (app_write r req env db) Hp) as [->|(v & Hv & Hw)];
    [split; reflexivity|].
  rewrite (authenticated_as_unique _ _ _ _ Hu Hv).
  now apply (write_frame env).
Qed.

(** The routes without a token never touch the notes: login changes
    nothing at all, and registration leaves the notes, their counter and
    every stored user as they are. *)
Theorem open_routes_leave_notes (req : request) (env : Env) (db : Db) :
  snd (app POST_api_login req env db) = db
  /\ notes (snd (app POST_api_register req env db)) = notes db
  /\ notes_seq (snd (app POST_api_register req env db)) = notes_seq db
  /\ (forall row, In row (users db) ->
                  In row (users (snd (app POST_api_register req env db)))).
Proof.
  split; [apply post_login_db|].
  pose proof (post_register_write req env db) as Hw. simpl.
  exact (write_anonymous env _ _ Hw).
Qed.

(** The four note routes never write to the users table: its rows and its
    counter are the same after any request to them. *)
Theorem note_routes_leave_users (r : route) (req : request) (env : Env)
        (db : Db) :
  is_note_route r = true ->
  users (snd (app r req env db)) = users db
  /\ users_seq (snd (app r req env db)) = users_seq db.
Proof.
  intros Hr.
  set (P := fun d : Db => users d = users db /\ users_seq d = users_seq db).
  assert (HP : P db) by (split; reflexivity).
  change (P (snd (app r req env db))).
  destruct r; simpl in Hr; try discriminate; simpl.
  - unfold get_notes. apply authenticateToken_keeps; [exact HP|].
    intros u. now apply try_catch_keeps.
  - unfold post_notes. apply authenticateToken_keeps; [exact HP|].
    intros u. apply try_catch_keeps.
    destruct (negb (truthy (b_title (req_body req)))
              || negb (truthy (b_content (req_body req)))); [exact HP|].
    apply await_keeps; [exact HP | auto].
  - unfold put_notes_id. apply authenticateToken_keeps; [exact HP|].
    intros u. apply try_catch_keeps.
    destruct (negb (truthy (b_title (req_body req)))
              || negb (truthy (b_content (req_body req)))); [exact HP|].
    apply await_keeps.
    + destruct (find (note_where (parseInt (params_id req)) (c_id u)) (notes db))
        as [x|] eqn:E.
      * now rewrite (updateNote_found _ _ _ _ _ _ _ x E).
      * now rewrite (updateNote_absent _ _ _ _ _ _ _ E).
    + intros [n|] db' Hdb'; exact Hdb'.
  - unfold delete_notes_id. apply authenticateToken_keeps; [exact HP|].
    intros u. apply try_catch_keeps.
    apply await_keeps.
    + unfold deleteNote, getNoteById. run_promise.
      now destruct (find _ (notes db)).
    + intros [|] db' Hdb'; exact Hdb'.
Qed.

(** No route lowers a counter. *)
Lemma app_seq (r : route) (req : request) (env : Env) (db : Db) :
  users_seq db <= users_seq (snd (app r req env db))
  /\ notes_seq db <= notes_seq (snd (app r req env db)).
Proof.
  destruct (app_is_write r req env db) as [who Hw].
  exact (write_seq env _ _ who Hw).
Qed.

(** An id the notes counter has passed and no stored note carries is
    carried by no note after any run of requests. *)
Lemma spent_note_id_stays_free (calls : list call) (db : Db) (k : Z) :
  wf_db db -> k <= notes_seq db -> no_such_note db k ->
  no_such_note (serve_all calls db) k.
Proof.
  revert db. induction calls as [|[[r req] env] rest IH]; simpl;
    intros db Hwf Hk Hfree; [exact Hfree|].
  apply IH.
  - now apply app_wf.
  - pose proof (app_seq r req env db). lia.
  - intros row Hrow Hid.
    destruct (app_is_write r req env db) as [who Hw].
    destruct (write_note_origin env _ _ who row Hw Hrow)
      as [(r0 & Hr0 & Hid0 & _)|Hnew].
    + apply (Hfree r0 Hr0). congruence.
    + lia.
Qed.

Lemma spent_user_id_stays_free (calls : list call) (db : Db) (k : Z) :
  wf_db db -> k <= users_seq db -> no_such_user db k ->
  no_such_user (serve_all calls db) k.
Proof.
  revert db. induction calls as [|[[r req] env] rest IH]; simpl;
    intros db Hwf Hk Hfree; [exact Hfree|].
  apply IH.
  - now apply app_wf.
  - pose proof (app_seq r req env db). lia.
  - intros row Hrow Hid.
    destruct (app_is_write r req env db) as [who Hw].
    destruct (write_user_origin env _ _ who row Hw Hrow)
      as [(r0 & Hr0 & Hid0 & _)|Hnew].
    + apply (Hfree r0 Hr0). congruence.
    + lia.
Qed.

(** The id of a deleted note is never given out again: after
    [deleteNote] has removed a stored note, no run of requests, whatever
    they are, brings a note with that id into the table. *)
Theorem deleted_note_id_never_returns (db : Db) (n : note_row) (env : Env)
        (calls : list call) :
  wf_db db -> In n (notes db) ->
  no_such_note
    (serve_all calls (snd (deleteNote (Int (n_id n)) (n_user_id n) env db)))
    (n_id n).
Proof.
  intros Hwf Hin.
  pose proof (deleteNote_wf (Int (n_id n)) (n_user_id n) env db Hwf) as Hwf1.
  revert Hwf1. unfold deleteNote, getNoteById. run_promise.
  rewrite (find_owned db n Hwf Hin). simpl. intros Hwf1.
  apply spent_note_id_stays_free; [exact Hwf1| |].
  - simpl. pose proof (wf_note_seq db Hwf) as Hseq.
    rewrite Forall_forall in Hseq. specialize (Hseq n Hin). lia.
  - intros row Hrow Hid. simpl in Hrow.
    apply filter_In in Hrow as [Hrow Hw].
    assert (row = n)
      by exact (NoDup_map_unique n_id (notes db) row n
                  (wf_note_ids db Hwf) Hrow Hin Hid).
    subst row. now rewrite note_where_owned in Hw.
Qed.

(** The id of a deleted account is never given out again: after
    [deleteUserAccount] has resolved to true, no run of requests brings a
    user with that id into the table, so the token of the deleted account,
    which the gate still accepts, never names a later user. *)
Theorem deleted_user_id_never_returns (db db1 : Db) (userId : Z)
        (password : string) (env : Env) (calls : list call) :
  wf_db db ->
  deleteUserAccount userId password env db = (Resolved true, db1) ->
  no_such_user (serve_all calls db1) userId.
Proof.
  intros Hwf Hrun.
  pose proof (deleteUserAccount_wf userId password env db Hwf) as Hwf1.
  rewrite Hrun in Hwf1. cbn [snd] in Hwf1.
  revert Hrun. unfold deleteUserAccount, select_user_by_id. run_promise.
  destruct (find (user_where_id userId) (users db)) as [row|] eqn:E;
    [|discriminate].
  destruct (compareSync password (u_password_hash row)); simpl;
    [|discriminate].
  intros [= _ <-].
  apply spent_user_id_stays_free; [exact Hwf1| |].
  - simpl. apply find_some in E as [Hrow Hid].
    apply Z.eqb_eq in Hid.
    pose proof (wf_user_seq db Hwf) as Hseq.
    rewrite Forall_forall in Hseq. specialize (Hseq row Hrow). lia.
  - intros r Hr Hid. simpl in Hr.
    apply filter_In in Hr as [_ Hr].
    apply negb_true_iff, Z.eqb_neq in Hr. contradiction.
Qed.

(** String fields.  Every database the application reaches by serving
    requests whose body fields are strings (or absent) holds only rows
    that passed the validation of the routes: every note has a non-empty
    title and a non-empty content, every username has at least three
    characters. *)
Theorem reachable_rows_validated (db : Db) :
  reachable db ->
  Forall validated_note (notes db) /\ Forall validated_user (users db).
Proof.
  induction 1 as [|r req env db Hreach IH].
  - split; constructor.
  - destruct (app_is_write r req env db) as [who Hw].
    exact (write_validated env _ _ who Hw IH).
Qed.

End RouteFrames.

(* ===================================================================== *)
(** ** Accounts: login, registration, password and deletion               *)
(* ===================================================================== *)

Section AccountFacts.
Context `{Bcrypt} `{Jwt}.

(** String fields.  A login whose username and password are non-empty
    strings and that fails, fails alike: whether the username is not
    stored or the password does not match the stored hash, the answer is
    the same 401 with the same message, and the database is unchanged. *)
Theorem login_failures_alike (req : request) (env : Env) (db : Db) :
  truthy (b_username (req_body req)) = true ->
  truthy (b_password (req_body req)) = true ->
  (forall row,
      find (user_where_username (or_empty (b_username (req_body req))))
        (users db) = Some row ->
      compareSync (or_empty (b_password (req_body req))) (u_password_hash row)
      = false) ->
  post_login req env db
  = (Resolved {| status := 401;
                 json_body := Error "Invalid username or password" |}, db).
Proof.
  intros Hu Hp Hfail. unfold post_login, try_catch.
  rewrite Hu, Hp. cbn [negb orb].
  unfold verifyUser, getUserByUsername. run_promise.
  destruct (find _ (users db)) as [row|] eqn:E; [|reflexivity].
  now rewrite (Hfail row eq_refl).
Qed.

(** The order of the checks of [POST /api/register]: a missing or empty
    field is reported first, then a username shorter than three
    characters, then a password shorter than six, each with 400 and its
    own message and before the table is read; so a short password is
    answered 400 also when the username is taken. *)
Theorem register_validation_order (req : request) (env : Env) (db : Db) :
  (truthy (b_username (req_body req)) = false
   \/ truthy (b_password (req_body req)) = false ->
   post_register req env db
   = (Resolved {| status := 400;
                  json_body := Error "Username and password are required" |},
      db))
  /\ (truthy (b_username (req_body req)) = true ->
      truthy (b_password (req_body req)) = true ->
      (String.length (or_empty (b_username (req_body req))) < 3)%nat ->
      post_register req env db
      = (Resolved {| status := 400;
                     json_body := Error "Username must be at least 3 characters" |},
         db))
  /\ (truthy (b_username (req_body req)) = true ->
      truthy (b_password (req_body req)) = true ->
      (3 <= String.length (or_empty (b_username (req_body req))))%nat ->
      (String.length (or_empty (b_password (req_body req))) < 6)%nat ->
      post_register req env db
      = (Resolved {| status := 400;
                     json_body := Error "Password must be at least 6 characters" |},
         db)).
Proof.
  pose proof (post_register_run req env db) as Hrun. cbv zeta in Hrun.
  rewrite Hrun. split; [|split].
  - intros [Hu|Hp]; [now rewrite Hu|].
    rewrite Hp. cbn [negb]. now rewrite orb_true_r.
  - intros Hu Hp Hlen. rewrite Hu, Hp. cbn [negb orb].
    apply Nat.ltb_lt in Hlen. now rewrite Hlen.
  - intros Hu Hp Hlen3 Hlen6. rewrite Hu, Hp. cbn [negb orb].
    rewrite (length_ltb_false _ _ Hlen3).
    apply Nat.ltb_lt in Hlen6. now rewrite Hlen6.
Qed.

Lemma find_fresh_user_id (db : Db) :
  wf_db db -> find (user_where_id (users_seq db + 1)) (users db) = None.
Proof.
  intros Hwf. apply find_none_iff. intros r Hr.
  pose proof (wf_user_seq db Hwf) as Hseq.
  rewrite Forall_forall in Hseq. specialize (Hseq r Hr).
  unfold user_where_id. apply Z.eqb_neq. lia.
Qed.

(** [createUser] and the lookups: for a stored username it rejects with
    the UNIQUE constraint and stores nothing; otherwise it resolves to a
    user with the next id of the counter, after which [getUserByUsername]
    finds a row with that id and the hash of the password, and
    [getUserById] finds a user with that id and username. *)
Theorem createUser_round_trip (name password : string) (env env' : Env)
        (db : Db) :
  wf_db db ->
  ((exists r, In r (users db) /\ u_username r = name) ->
   createUser name password env db
   = (Rejected (SQLITE_CONSTRAINT "UNIQUE constraint failed: users.username"),
      db))
  /\ ((forall r, In r (users db) -> u_username r <> name) ->
      exists user row found db1,
        createUser name password env db = (Resolved user, db1)
        /\ id user = users_seq db + 1 /\ username user = name
        /\ getUserByUsername name env' db1 = (Resolved (Some row), db1)
        /\ u_id row = id user
        /\ u_password_hash row = hashSync password 10 (salt env)
        /\ getUserById (id user) env' db1 = (Resolved (Some found), db1)
        /\ id found = id user /\ username found = name).
Proof.
  intros Hwf. split.
  - intros Hstored. unfold createUser, insert_user. run_promise.
    destruct (find_registered name db Hstored) as [row Hrow].
    assert (Hex : existsb (user_where_username name) (users db) = true).
    { apply find_some in Hrow as [Hin Hw].
      apply existsb_exists. now exists row. }
    now rewrite Hex.
  - intros Hfree.
    pose proof (find_unregistered name db Hfree) as Hnone.
    exists {| id := users_seq db + 1; username := name;
              created_at := clock env |},
           (registered_row name password env db),
           (without_password (registered_row name password env db)),
           (registered_db name password env db).
    split.
    { unfold createUser, insert_user. run_promise.
      now rewrite (existsb_find_none _ _ Hnone). }
    split; [reflexivity|]. split; [reflexivity|].
    split.
    { unfold getUserByUsername, registered_db. cbn [users].
      rewrite find_app_fresh by exact Hnone.
      unfold user_where_username, registered_row. cbn [u_username].
      now rewrite String.eqb_refl. }
    split; [reflexivity|]. split; [reflexivity|].
    split; [|split; reflexivity].
    unfold getUserById, registered_db. cbn [users].
    rewrite find_app_fresh by (now apply find_fresh_user_id).
    unfold user_where_id, registered_row. cbn [u_id id].
    now rewrite Z.eqb_refl.
Qed.

Lemma find_map_kept {A : Type} (p : A -> bool) (g : A -> A) (l : list A) :
  (forall r, p (g r) = p r) ->
  find p (map g l) = option_map g (find p l).
Proof.
  intros Hp. induction l as [|a l IH]; simpl; [reflexivity|].
  rewrite Hp. now destruct (p a).
Qed.

Lemma find_user_by_id (db : Db) (row : user_row) :
  wf_db db -> In row (users db) ->
  find (user_where_id (u_id row)) (users db) = Some row.
Proof.
  intros Hwf Hin.
  assert (Hw : user_where_id (u_id row) row = true)
    by (unfold user_where_id; apply Z.eqb_refl).
  destruct (find_In_some _ _ row Hin Hw) as [y Hy].
  rewrite Hy. f_equal.
  apply find_some in Hy as [Hyin Hyw]. apply Z.eqb_eq in Hyw.
  exact (NoDup_map_unique u_id (users db) y row (wf_user_ids db Hwf)
           Hyin Hin Hyw).
Qed.

Lemma find_user_by_name (db : Db) (row : user_row) :
  wf_db db -> In row (users db) ->
  find (user_where_username (u_username row)) (users db) = Some row.
Proof.
  intros Hwf Hin.
  assert (Hw : user_where_username (u_username row) row = true)
    by (now apply user_where_username_true).
  destruct (find_In_some _ _ row Hin Hw) as [y Hy].
  rewrite Hy. f_equal.
  apply find_some in Hy as [Hyin Hyw].
  apply user_where_username_true in Hyw.
  exact (NoDup_map_unique u_username (users db) y row
           (wf_usernames db Hwf) Hyin Hin Hyw).
Qed.

(** [changePassword] for a stored user: it resolves to true exactly when
    the old password matches the stored hash; then the hash of that user,
    and nothing else, is replaced by the hash of the new password (ids,
    usernames, creation times, the other rows, the notes and the counters
    stay), and otherwise the database is unchanged. *)
Theorem changePassword_effect (db : Db) (row : user_row)
        (oldPassword newPassword : string) (env : Env) :
  wf_db db -> In row (users db) ->
  exists db1,
    changePassword (u_id row) oldPassword newPassword env db
    = (Resolved (compareSync oldPassword (u_password_hash row)), db1)
    /\ (compareSync oldPassword (u_password_hash row) = false -> db1 = db)
    /\ (compareSync oldPassword (u_password_hash row) = true ->
        forall r, In r (users db1) <->
                  r = {| u_id := u_id row; u_username := u_username row;
                         u_password_hash := hashSync newPassword 10 (salt env);
                         u_created_at := u_created_at row |}
                  \/ (In r (users db) /\ r <> row))
    /\ notes db1 = notes db
    /\ users_seq db1 = users_seq db /\ notes_seq db1 = notes_seq db.
Proof.
  intros Hwf Hin.
  unfold changePassword, select_user_by_id. run_promise.
  rewrite (find_user_by_id db row Hwf Hin).
  destruct (compareSync oldPassword (u_password_hash row)) eqn:Hcmp; simpl.
  - exists (snd (update_password_hash (hashSync newPassword 10 (salt env))
                   (u_id row) env db)).
    split.
    + simpl. f_equal. f_equal. apply Nat.ltb_lt.
      apply (filter_length_pos _ _ row Hin).
      unfold user_where_id. apply Z.eqb_refl.
    + split; [discriminate|].
      split; [|split; [reflexivity|split; reflexivity]].
      intros _ r. simpl. rewrite in_map_iff. split.
      * intros (r0 & Hr0 & Hin0).
        destruct (user_where_id (u_id row) r0) eqn:Hw.
        -- left. apply Z.eqb_eq in Hw.
           assert (r0 = row)
             by exact (NoDup_map_unique u_id (users db) r0 row
                         (wf_user_ids db Hwf) Hin0 Hin Hw).
           subst r0. now symmetry.
        -- right. subst r0. split; [exact Hin0|].
           intros ->. unfold user_where_id in Hw.
           now rewrite Z.eqb_refl in Hw.
      * intros [->|[Hr Hne]].
        -- exists row. split; [|exact Hin].
           unfold user_where_id. now rewrite Z.eqb_refl.
        -- exists r. split; [|exact Hr].
           destruct (user_where_id (u_id row) r) eqn:Hw; [|reflexivity].
           exfalso. apply Hne. apply Z.eqb_eq in Hw.
           exact (NoDup_map_unique u_id (users db) r row
                    (wf_user_ids db Hwf) Hr Hin Hw).
  - exists db. split; [reflexivity|]. split; [reflexivity|].
    split; [discriminate|]. repeat split.
Qed.

(** After a password change that succeeded, the new password logs in:
    [verifyUser] with the username and the new password resolves to the
    same user. *)
Theorem changePassword_then_verifyUser (db db1 : Db) (row : user_row)
        (oldPassword newPassword : string) (env env' : Env) :
  bcrypt_sound ->
  wf_db db -> In row (users db) ->
  changePassword (u_id row) oldPassword newPassword env db
  = (Resolved true, db1) ->
  verifyUser (u_username row) newPassword env' db1
  = (Resolved (Some (without_password row)), db1).
Proof.
  intros Hsound Hwf Hin.
  unfold changePassword, select_user_by_id. run_promise.
  rewrite (find_user_by_id db row Hwf Hin).
  destruct (compareSync oldPassword (u_password_hash row)); simpl;
    [|discriminate].
  intros [= _ <-].
  unfold verifyUser, getUserByUsername. run_promise.
  rewrite find_map_kept
    by (intros r; now destruct (user_where_id (u_id row) r)).
  rewrite (find_user_by_name db row Hwf Hin). simpl.
  unfold user_where_id. rewrite Z.eqb_refl. simpl.
  now rewrite Hsound.
Qed.

(** [deleteUserAccount]: it resolves to true exactly when a user of that
    id is stored and the password matches its hash; then no user of that
    id and no note of that user is left, while the rows of the other users
    and the notes of the other users are as before; otherwise the database
    is unchanged. *)
Theorem deleteUserAccount_effect (userId : Z) (password : string)
        (env : Env) (db : Db) :
  exists ok db1,
    deleteUserAccount userId password env db = (Resolved ok, db1)
    /\ (ok = true <->
        exists row, find (user_where_id userId) (users db) = Some row
                    /\ compareSync password (u_password_hash row) = true)
    /\ (ok = false -> db1 = db)
    /\ (ok = true ->
        no_such_user db1 userId /\ notes_of userId db1 = []
        /\ notes_of_others userId db1 = notes_of_others userId db
        /\ filter (fun r => negb (user_where_id userId r)) (users db1)
           = filter (fun r => negb (user_where_id userId r)) (users db)).
Proof.
  unfold deleteUserAccount, select_user_by_id. run_promise.
  destruct (find (user_where_id userId) (users db)) as [row|] eqn:E.
  - destruct (compareSync password (u_password_hash row)) eqn:Hcmp; simpl.
    + eexists. eexists. split; [reflexivity|].
      assert (Hpos : (0 <? List.length (filter (user_where_id userId) (users db)))%nat
                     = true).
      { apply Nat.ltb_lt. apply find_some in E as [Hin Hw].
        now apply (filter_length_pos _ _ row). }
      rewrite Hpos. split; [split; [intros _; now exists row | reflexivity]|].
      split; [discriminate|]. intros _.
      unfold no_such_user, notes_of, notes_of_others. simpl.
      split; [|split; [|split]].
      * intros r Hr Hid. apply filter_In in Hr as [_ Hr].
        apply negb_true_iff, Z.eqb_neq in Hr. contradiction.
      * destruct (filter _ (filter _ (notes db))) as [|x rest] eqn:Ef;
          [reflexivity|].
        assert (Hx : In x (filter (fun r => n_user_id r =? userId)
                             (filter (fun r => negb (n_user_id r =? userId))
                                (notes db))))
          by (rewrite Ef; now left).
        apply filter_In in Hx as [Hx Hown].
        apply filter_In in Hx as [_ Hnot].
        rewrite Hown in Hnot. discriminate.
      * now apply filter_filter_kept.
      * now apply filter_filter_kept.
    + exists false, db. split; [reflexivity|].
      split; [|split; [reflexivity | discriminate]].
      split; [discriminate|].
      intros (row' & [= <-] & Hc). congruence.
  - exists false, db. split; [reflexivity|].
    split; [|split; [reflexivity | discriminate]].
    split; [discriminate|]. intros (row' & Hrow' & _). discriminate.
Qed.

(** After an account has been deleted: a login with its username fails
    whatever the password, and its token, which the gate still accepts
    until it expires, lists no notes. *)
Theorem deleted_account_afterwards (db db1 : Db) (row : user_row)
        (password : string) (env : Env) :
  wf_db db -> In row (users db) ->
  deleteUserAccount (u_id row) password env db = (Resolved true, db1) ->
  (forall attempt env',
      verifyUser (u_username row) attempt env' db1 = (Resolved None, db1))
  /\ (forall req env' u,
        authenticated_as req env' u -> c_id u = u_id row ->
        get_notes req env' db1
        = (Resolved {| status := 200; json_body := NoteList [] 0 |}, db1)).
Proof.
  intros Hwf Hin.
  unfold deleteUserAccount, select_user_by_id. run_promise.
  rewrite (find_user_by_id db row Hwf Hin).
  destruct (compareSync password (u_password_hash row)); simpl;
    [|discriminate].
  intros [= _ <-]. split.
  - intros attempt env'. unfold verifyUser, getUserByUsername. run_promise.
    assert (Hnone : find (user_where_username (u_username row))
                      (filter (fun r => negb (user_where_id (u_id row) r))
                         (users db)) = None).
    { apply find_none_iff. intros r Hr.
      apply filter_In in Hr as [Hr Hid].
      apply not_true_is_false. intros Hname.
      apply user_where_username_true in Hname.
      assert (r = row)
        by exact (NoDup_map_unique u_username (users db) r row
                    (wf_usernames db Hwf) Hr Hin Hname).
      subst r. unfold user_where_id in Hid.
      now rewrite Z.eqb_refl in Hid. }
    now rewrite Hnone.
  - intros req env' u [Ht Hv] Hu. unfold get_notes.
    rewrite (authenticateToken_valid _ _ _ _ u Ht Hv).
    unfold try_catch, getNotesByUserId. run_promise. rewrite Hu.
    assert (Hempty : filter (fun r => n_user_id r =? u_id row)
                       (filter (fun r => negb (n_user_id r =? u_id row))
                          (notes db)) = []).
    { destruct (filter _ (filter _ (notes db))) as [|x rest] eqn:Ef;
        [reflexivity|].
      assert (Hx : In x (filter (fun r => n_user_id r =? u_id row)
                           (filter (fun r => negb (n_user_id r =? u_id row))
                              (notes db))))
        by (rewrite Ef; now left).
      apply filter_In in Hx as [Hx Hown].
      apply filter_In in Hx as [_ Hnot].
      rewrite Hown in Hnot. discriminate. }
    now rewrite Hempty.
Qed.

End AccountFacts.

(* ===================================================================== *)
(** ** Listing after a creation and after a deletion                      *)
(* ===================================================================== *)

Lemma fold_insert_newest (note : note_row) (l : list note_row) :
  (forall r, In r l -> n_updated_at r < n_updated_at note) ->
  fold_right insert_desc [note] l = note :: order_by_updated_at_desc l.
Proof.
  induction l as [|a l IH]; simpl; intros Hold; [reflexivity|].
  rewrite IH by (intros r Hr; apply Hold; now right). simpl.
  assert (Ha : (n_updated_at note <=? n_updated_at a) = false).
  { apply Z.leb_gt. exact (Hold a (or_introl eq_refl)). }
  now rewrite Ha.
Qed.

Lemma order_by_snoc (note : note_row) (l : list note_row) :
  order_by_updated_at_desc (l ++ [note]) = fold_right insert_desc [note] l.
Proof. unfold order_by_updated_at_desc. now rewrite fold_right_app. Qed.

(** A created note is listed: after [createNote], the list of the owner
    is the list from before together with the new note, which comes first
    when every note of the owner was last updated before the second of the
    creation; the lists of all other users are as before. *)
Theorem created_note_is_listed (db : Db) (userId : Z)
        (title content tags : string) (env env' : Env) :
  wf_db db ->
  exists note db1 rows rows1,
    createNote userId title content tags env db = (Resolved (Some note), db1)
    /\ getNotesByUserId userId env' db = (Resolved rows, db)
    /\ getNotesByUserId userId env' db1 = (Resolved rows1, db1)
    /\ Permutation rows1 (note :: rows)
    /\ ((forall r, In r rows -> n_updated_at r < clock env) ->
        rows1 = note :: rows)
    /\ (forall other, other <> userId ->
          fst (getNotesByUserId other env' db1)
          = fst (getNotesByUserId other env' db)).
Proof.
  intros Hwf.
  pose proof (createNote_run userId title content tags env db Hwf) as Hrun.
  cbv zeta in Hrun.
  eexists. eexists. eexists. eexists.
  split; [exact Hrun|]. split; [reflexivity|]. split; [reflexivity|].
  simpl. rewrite filter_app. simpl. rewrite Z.eqb_refl.
  split; [|split].
  - rewrite order_by_perm.
    rewrite <- Permutation_cons_append.
    constructor. symmetry. apply order_by_perm.
  - intros Hold. rewrite order_by_snoc. apply fold_insert_newest.
    intros r Hr. simpl. apply Hold.
    exact (Permutation_in _ (Permutation_sym (order_by_perm _)) Hr).
  - intros other Hother. rewrite filter_app. simpl.
    assert (Hne : (userId =? other) = false) by (apply Z.eqb_neq; congruence).
    rewrite Hne. now rewrite app_nil_r.
Qed.

Lemma filter_all_kept {A : Type} (p : A -> bool) (l : list A) :
  (forall r, In r l -> p r = true) -> filter p l = l.
Proof.
  intros Hall. apply forallb_filter_id. now apply forallb_forall.
Qed.

(** In a table with unique ids, the rows an owner is shown are the
    deleted note and the rows shown afterwards. *)
Lemma filter_after_delete (l : list note_row) (n : note_row) :
  NoDup (map n_id l) -> In n l ->
  Permutation
    (filter (fun r => n_user_id r =? n_user_id n) l)
    (n :: filter (fun r => n_user_id r =? n_user_id n)
            (filter (fun r => negb (note_where (Int (n_id n)) (n_user_id n) r))
               l)).
Proof.
  induction l as [|a l IH]; simpl; intros Hnd Hin; [contradiction|].
  inversion Hnd as [|? ? Hnotin Hnd']; subst.
  destruct Hin as [->|Hin].
  - rewrite note_where_owned, Z.eqb_refl. simpl.
    constructor.
    rewrite (filter_all_kept
               (fun r => negb (note_where (Int (n_id n)) (n_user_id n) r)) l);
      [reflexivity|].
    intros r Hr. apply negb_true_iff. apply not_true_is_false. intros Hw.
    apply note_where_true in Hw as [[= Hid] _].
    apply Hnotin. rewrite Hid. now apply in_map.
  - assert (Hw : note_where (Int (n_id n)) (n_user_id n) a = false).
    { apply not_true_is_false. intros Hw.
      apply note_where_true in Hw as [[= Hid] _].
      apply Hnotin. rewrite <- Hid. now apply in_map. }
    rewrite Hw. simpl.
    destruct (n_user_id a =? n_user_id n).
    + rewrite (IH Hnd' Hin). apply perm_swap.
    + exact (IH Hnd' Hin).
Qed.

(** A deleted note is no longer listed: after [deleteNote] by the owner,
    the list of the owner is the list from before without that note, and
    [getNoteById] no longer finds it. *)
Theorem deleted_note_is_unlisted (db : Db) (n : note_row) (env env' : Env) :
  wf_db db -> In n (notes db) ->
  exists db1 rows rows1,
    deleteNote (Int (n_id n)) (n_user_id n) env db = (Resolved true, db1)
    /\ getNotesByUserId (n_user_id n) env' db = (Resolved rows, db)
    /\ getNotesByUserId (n_user_id n) env' db1 = (Resolved rows1, db1)
    /\ Permutation rows (n :: rows1)
    /\ getNoteById (Int (n_id n)) (n_user_id n) env' db1 = (Resolved None, db1).
Proof.
  intros Hwf Hin.
  destruct (deleteNote_run (Int (n_id n)) (n_user_id n) env db)
    as (db1 & Hrun & Hnotes & _ & _).
  assert (Hex : existsb (note_where (Int (n_id n)) (n_user_id n)) (notes db)
                = true).
  { apply existsb_exists. exists n. split; [exact Hin|].
    apply note_where_owned. }
  rewrite Hex in Hrun.
  exists db1. eexists. eexists.
  split; [exact Hrun|]. split; [reflexivity|]. split; [reflexivity|].
  split.
  - rewrite Hnotes, order_by_perm.
    rewrite (filter_after_delete (notes db) n (wf_note_ids db Hwf) Hin).
    constructor. symmetry. apply order_by_perm.
  - rewrite getNoteById_run, Hnotes. now rewrite find_after_delete.
Qed.

(* ===================================================================== *)
(** ** The account routes                                                 *)
(* ===================================================================== *)

Section AccountRoutes.
Context `{Bcrypt} `{Jwt}.

Lemma find_no_such_user (db : Db) (userId : Z) :
  no_such_user db userId -> find (user_where_id userId) (users db) = None.
Proof.
  intros Hno. apply find_none_iff. intros r Hr.
  unfold user_where_id. apply Z.eqb_neq. exact (Hno r Hr).
Qed.

(** String fields.  [PUT /api/user/password] past the gate and the
    validation (both fields non-empty strings, the new password of six
    characters or more and different from the old one): for a stored user
    the answer is 200 when the old password matches the stored hash and
    401 "Current password is incorrect" when it does not, in which case
    nothing changes; for a token whose user is no longer stored the answer
    is that same 401. *)
Theorem put_user_password_answers (req : request) (env : Env) (db : Db)
        (u : claims) :
  wf_db db ->
  authenticated_as req env u ->
  truthy (b_oldPassword (req_body req)) = true ->
  truthy (b_newPassword (req_body req)) = true ->
  (6 <= String.length (or_empty (b_newPassword (req_body req))))%nat ->
  or_empty (b_oldPassword (req_body req))
  <> or_empty (b_newPassword (req_body req)) ->
  (forall row, In row (users db) -> u_id row = c_id u ->
     exists db1,
       put_user_password req env db
       = (Resolved
            (if compareSync (or_empty (b_oldPassword (req_body req)))
                  (u_password_hash row)
             then {| status := 200;
                     json_body := Message "Password changed successfully" |}
             else {| status := 401;
                     json_body := Error "Current password is incorrect" |}),
          db1)
       /\ (compareSync (or_empty (b_oldPassword (req_body req)))
             (u_password_hash row) = false -> db1 = db))
  /\ (no_such_user db (c_id u) ->
      put_user_password req env db
      = (Resolved {| status := 401;
                     json_body := Error "Current password is incorrect" |}, db)).
Proof.
  intros Hwf [Ht Hv] Hold Hnew Hlen Hdiff.
  assert (Hroute : put_user_password req env db
                   = try_catch
                       (let* success :=
                          changePassword (c_id u)
                            (or_empty (b_oldPassword (req_body req)))
                            (or_empty (b_newPassword (req_body req))) in
                        if negb success
                        then res_status_json 401
                               (Error "Current password is incorrect")
                        else res_json (Message "Password changed successfully"))
                       internal_server_error env db).
  { unfold put_user_password.
    rewrite (authenticateToken_valid _ _ _ _ u Ht Hv).
    unfold try_catch. rewrite Hold, Hnew. cbn [negb orb].
    rewrite (length_ltb_false _ _ Hlen).
    apply String.eqb_neq in Hdiff. now rewrite Hdiff. }
  rewrite Hroute. clear Hroute.
  unfold try_catch, changePassword, select_user_by_id. run_promise.
  split.
  - intros row Hrow Hid. rewrite <- Hid.
    rewrite (find_user_by_id db row Hwf Hrow).
    destruct (compareSync _ (u_password_hash row)); simpl.
    + assert (Hpos : (0 <? List.length
                             (filter (user_where_id (u_id row)) (users db)))%nat
                     = true).
      { apply Nat.ltb_lt. apply (filter_length_pos _ _ row Hrow).
        unfold user_where_id. apply Z.eqb_refl. }
      rewrite Hpos. simpl. eexists. split; [reflexivity | discriminate].
    + exists db. split; reflexivity.
  - intros Hgone. now rewrite (find_no_such_user db (c_id u) Hgone).
Qed.

(** String fields.  [DELETE /api/user/account] past the gate, with a
    password that is a string: for a stored user the answer is 200 when
    the password matches the stored hash and 401 "Password is incorrect"
    when it does not, in which case nothing changes; without a password
    (or with an empty one) the answer is 400 and nothing changes. *)
Theorem delete_user_account_answers (req : request) (env : Env) (db : Db)
        (u : claims) (row : user_row) :
  wf_db db ->
  authenticated_as req env u ->
  In row (users db) -> u_id row = c_id u ->
  (truthy (b_password (req_body req)) = false ->
   delete_user_account req env db
   = (Resolved {| status := 400;
                  json_body := Error "Password is required to delete account" |},
      db))
  /\ (truthy (b_password (req_body req)) = true ->
      exists db1,
        delete_user_account req env db
        = (Resolved
             (if compareSync (or_empty (b_password (req_body req)))
                   (u_password_hash row)
              then {| status := 200;
                      json_body := Message "Account deleted successfully" |}
              else {| status := 401;
                      json_body := Error "Password is incorrect" |}),
           db1)
        /\ (compareSync (or_empty (b_password (req_body req)))
              (u_password_hash row) = false -> db1 = db)
        /\ (compareSync (or_empty (b_password (req_body req)))
              (u_password_hash row) = true ->
            no_such_user db1 (c_id u) /\ notes_of (c_id u) db1 = [])).
Proof.
  intros Hwf [Ht Hv] Hrow Hid.
  unfold delete_user_account.
  rewrite (authenticateToken_valid _ _ _ _ u Ht Hv).
  unfold try_catch. split.
  - intros Hp. now rewrite Hp.
  - intros Hp. rewrite Hp. cbn [negb].
    unfold deleteUserAccount, select_user_by_id. run_promise.
    rewrite <- Hid. rewrite (find_user_by_id db row Hwf Hrow).
    destruct (compareSync _ (u_password_hash row)); simpl.
    + assert (Hpos : (0 <? List.length
                             (filter (user_where_id (u_id row)) (users db)))%nat
                     = true).
      { apply Nat.ltb_lt. apply (filter_length_pos _ _ row Hrow).
        unfold user_where_id. apply Z.eqb_refl. }
      rewrite Hpos. simpl. eexists. split; [reflexivity|].
      split; [discriminate|]. intros _.
      unfold no_such_user, notes_of. simpl. split.
      * intros r Hr Hrid. apply filter_In in Hr as [_ Hr].
        apply negb_true_iff, Z.eqb_neq in Hr. contradiction.
      * destruct (filter _ (filter _ (notes db))) as [|x rest] eqn:Ef;
          [reflexivity|].
        assert (Hx : In x (filter (fun r => n_user_id r =? u_id row)
                             (filter (fun r => negb (n_user_id r =? u_id row))
                                (notes db))))
          by (rewrite Ef; now left).
        apply filter_In in Hx as [Hx Hown].
        apply filter_In in Hx as [_ Hnot].
        rewrite Hown in Hnot. discriminate.
    + exists db. split; [reflexivity|]. split; [reflexivity | discriminate].
Qed.

End AccountRoutes.

(* ===================================================================== *)
(** ** The further theorems on the scenario                               *)
(* ===================================================================== *)

Lemma scenario_reachable : reachable db_scenario.
Proof.
  pose proof scenario_reached as [Hreg Hnote]. cbv zeta in Hreg, Hnote.
  replace db_scenario
    with (snd (app POST_api_notes
                 (request_of (bearer alice_token) ""
                    (note_fields (Some "A") (Some "B") None))
                 (env_at 1002) db_registered))
    by (now rewrite <- Hreg, Hnote).
  rewrite <- Hreg. repeat apply reachable_served. apply reachable_fresh.
Qed.

Lemma alice_row_stored : In alice_row (users db_scenario).
Proof. simpl. now left. Qed.

Lemma bob_row_stored : In bob_row (users db_scenario).
Proof. simpl. right. now left. Qed.

(** A loopback entry, an IPv6 entry and an IPv4 entry. *)
Lemma getLocalIpAddress_scenario :
  let interfaces :=
    [ ("lo", [ {| address := "127.0.0.1"; family := "IPv4"; internal := true |} ]);
      ("eth0", [ {| address := "fe80::1"; family := "IPv6"; internal := false |};
                 {| address := "192.168.1.5"; family := "IPv4";
                    internal := false |} ]) ] in
  getLocalIpAddress interfaces = Some "192.168.1.5"
  /\ exists name ifaces i,
      In (name, ifaces) interfaces /\ In i ifaces
      /\ family i = "IPv4" /\ internal i = false /\ address i = "192.168.1.5".
Proof.
  intros interfaces. split; [reflexivity|].
  exact (proj1 (proj2 (getLocalIpAddress_first_external interfaces))
           "192.168.1.5" eq_refl).
Defined.

(** Bob sends [DELETE] for alice's note 1. *)
Lemma protected_routes_frame_scenario :
  (protected DELETE_api_notes_id = true
   /\ authenticated_as (request_of (bearer bob_token) "1" no_fields)
        (env_at 1003) bob_claims)
  /\ notes_of_others 2
       (snd (app DELETE_api_notes_id
               (request_of (bearer bob_token) "1" no_fields)
               (env_at 1003) db_scenario))
     = notes_of_others 2 db_scenario.
Proof.
  split; [split; [reflexivity | apply bob_authenticated]|].
  exact (proj1 (protected_routes_frame DELETE_api_notes_id
                  (request_of (bearer bob_token) "1" no_fields)
                  (env_at 1003) db_scenario bob_claims eq_refl
                  (bob_authenticated "1" no_fields))).
Defined.

(** Carol registers. *)
Lemma open_routes_leave_notes_scenario :
  notes (snd (app POST_api_register
                (request_of None "" (credentials "carol" "secret3"))
                (env_at 2000) db_scenario))
  = notes db_scenario.
Proof.
  exact (proj1 (proj2 (open_routes_leave_notes
                         (request_of None "" (credentials "carol" "secret3"))
                         (env_at 2000) db_scenario))).
Defined.

(** Alice posts a second note. *)
Lemma note_routes_leave_users_scenario :
  is_note_route POST_api_notes = true
  /\ users (snd (app POST_api_notes
                   (request_of (bearer alice_token) ""
                      (note_fields (Some "C") (Some "D") None))
                   (env_at 1003) db_scenario))
     = users db_scenario.
Proof.
  split; [reflexivity|].
  exact (proj1 (note_routes_leave_users POST_api_notes
                  (request_of (bearer alice_token) ""
                     (note_fields (Some "C") (Some "D") None))
                  (env_at 1003) db_scenario eq_refl)).
Defined.

(** Alice deletes note 1 and posts another note: it is not note 1. *)
Lemma deleted_note_id_never_returns_scenario :
  (wf_db db_scenario /\ In alice_note (notes db_scenario))
  /\ no_such_note
       (serve_all
          [ (POST_api_notes,
             request_of (bearer alice_token) ""
               (note_fields (Some "C") (Some "D") None),
             env_at 1004) ]
          (snd (deleteNote (Int 1) 1 (env_at 1003) db_scenario)))
       1.
Proof.
  assert (Hin : In alice_note (notes db_scenario)) by (simpl; now left).
  split; [split; [exact wf_db_scenario | exact Hin]|].
  exact (deleted_note_id_never_returns db_scenario alice_note (env_at 1003)
           _ wf_db_scenario Hin).
Defined.

(** Bob deletes his account and carol registers: she is not user 2. *)
Lemma deleted_user_id_never_returns_scenario :
  (wf_db db_scenario
   /\ deleteUserAccount 2 "hunter22" (env_at 1003) db_scenario
      = (Resolved true,
         snd (deleteUserAccount 2 "hunter22" (env_at 1003) db_scenario)))
  /\ no_such_user
       (serve_all
          [ (POST_api_register,
             request_of None "" (credentials "carol" "secret3"),
             env_at 2000) ]
          (snd (deleteUserAccount 2 "hunter22" (env_at 1003) db_scenario)))
       2.
Proof.
  assert (Hrun : deleteUserAccount 2 "hunter22" (env_at 1003) db_scenario
                 = (Resolved true,
                    snd (deleteUserAccount 2 "hunter22" (env_at 1003)
                           db_scenario)))
    by reflexivity.
  split; [split; [exact wf_db_scenario | exact Hrun]|].
  exact (deleted_user_id_never_returns db_scenario _ 2 "hunter22"
           (env_at 1003) _ wf_db_scenario Hrun).
Defined.

Lemma reachable_rows_validated_scenario :
  reachable db_scenario
  /\ Forall validated_note (notes db_scenario)
  /\ Forall validated_user (users db_scenario).
Proof.
  split; [exact scenario_reachable|].
  exact (reachable_rows_validated db_scenario scenario_reachable).
Defined.

Lemma reachable_wf_scenario :
  reachable db_scenario /\ NoDup (map n_id (notes db_scenario))
  /\ NoDup (map u_username (users db_scenario)).
Proof.
  split; [exact scenario_reachable|].
  pose proof (reachable_wf db_scenario scenario_reachable) as Hwf.
  exact (conj (wf_note_ids _ Hwf) (wf_usernames _ Hwf)).
Defined.

(** A wrong password for alice, and a user that is not stored. *)
Lemma login_failures_alike_scenario :
  post_login (request_of None "" (credentials "alice" "wrong-password"))
    (env_at 1003) db_scenario
  = (Resolved {| status := 401;
                 json_body := Error "Invalid username or password" |},
     db_scenario)
  /\ post_login (request_of None "" (credentials "mallory" "secret1"))
       (env_at 1003) db_scenario
     = (Resolved {| status := 401;
                    json_body := Error "Invalid username or password" |},
        db_scenario).
Proof.
  split.
  - apply (login_failures_alike
             (request_of None "" (credentials "alice" "wrong-password"))
             (env_at 1003) db_scenario eq_refl eq_refl).
    intros row [= <-]. reflexivity.
  - apply (login_failures_alike
             (request_of None "" (credentials "mallory" "secret1"))
             (env_at 1003) db_scenario eq_refl eq_refl).
    intros row Hrow. discriminate Hrow.
Defined.

(** The taken username bob with a password of three characters. *)
Lemma register_validation_order_scenario :
  (String.length "abc" < 6)%nat
  /\ post_register (request_of None "" (credentials "bob" "abc"))
       (env_at 1003) db_scenario
     = (Resolved {| status := 400;
                    json_body := Error "Password must be at least 6 characters" |},
        db_scenario).
Proof.
  split; [simpl; lia|].
  apply (proj2 (proj2 (register_validation_order
                         (request_of None "" (credentials "bob" "abc"))
                         (env_at 1003) db_scenario)));
    [reflexivity | reflexivity | simpl; lia | simpl; lia].
Defined.

(** [createUser] for carol, and for bob again. *)
Lemma createUser_round_trip_scenario :
  wf_db db_scenario
  /\ createUser "bob" "secret3" (env_at 2000) db_scenario
     = (Rejected (SQLITE_CONSTRAINT "UNIQUE constraint failed: users.username"),
        db_scenario)
  /\ exists user db1,
      createUser "carol" "secret3" (env_at 2000) db_scenario
      = (Resolved user, db1)
      /\ id user = 3 /\ username user = "carol".
Proof.
  split; [exact wf_db_scenario|].
  destruct (createUser_round_trip "bob" "secret3" (env_at 2000) (env_at 2001)
              db_scenario wf_db_scenario) as [Hdup _].
  destruct (createUser_round_trip "carol" "secret3" (env_at 2000) (env_at 2001)
              db_scenario wf_db_scenario) as [_ Hnew].
  split.
  - apply Hdup. exists bob_row. split; [exact bob_row_stored | reflexivity].
  - destruct Hnew as (user & row & found & db1 & Hrun & Hid & Hname & _).
    + intros r [<-|[<-|[]]]; discriminate.
    + exists user, db1. auto.
Defined.

(** Alice changes her password. *)
Lemma changePassword_effect_scenario :
  (wf_db db_scenario /\ In alice_row (users db_scenario))
  /\ exists db1,
      changePassword 1 "secret1" "secret2" (env_at 1003) db_scenario
      = (Resolved true, db1)
      /\ notes db1 = notes db_scenario.
Proof.
  split; [split; [exact wf_db_scenario | exact alice_row_stored]|].
  destruct (changePassword_effect db_scenario alice_row "secret1" "secret2"
              (env_at 1003) wf_db_scenario alice_row_stored)
    as (db1 & Hrun & _ & _ & Hnotes & _).
  exists db1. split; [exact Hrun | exact Hnotes].
Defined.

Lemma changePassword_then_verifyUser_scenario :
  (wf_db db_scenario /\ In alice_row (users db_scenario)
   /\ changePassword 1 "secret1" "secret2" (env_at 1003) db_scenario
      = (Resolved true,
         snd (changePassword 1 "secret1" "secret2" (env_at 1003) db_scenario)))
  /\ verifyUser "alice" "secret2" (env_at 1004)
       (snd (changePassword 1 "secret1" "secret2" (env_at 1003) db_scenario))
     = (Resolved (Some {| id := 1; username := "alice"; created_at := 1000 |}),
        snd (changePassword 1 "secret1" "secret2" (env_at 1003) db_scenario)).
Proof.
  assert (Hrun : changePassword 1 "secret1" "secret2" (env_at 1003) db_scenario
                 = (Resolved true,
                    snd (changePassword 1 "secret1" "secret2" (env_at 1003)
                           db_scenario)))
    by reflexivity.
  split; [split; [exact wf_db_scenario | split; [exact alice_row_stored | exact Hrun]]|].
  exact (changePassword_then_verifyUser db_scenario _ alice_row
           "secret1" "secret2" (env_at 1003) (env_at 1004)
           ref_bcrypt_sound wf_db_scenario alice_row_stored Hrun).
Defined.

(** Alice deletes her account with the wrong password. *)
Lemma deleteUserAccount_effect_scenario :
  exists ok db1,
    deleteUserAccount 1 "wrong" (env_at 1003) db_scenario = (Resolved ok, db1)
    /\ (ok = false -> db1 = db_scenario).
Proof.
  destruct (deleteUserAccount_effect 1 "wrong" (env_at 1003) db_scenario)
    as (ok & db1 & Hrun & _ & Hsame & _).
  exists ok, db1. split; [exact Hrun | exact Hsame].
Defined.

(** Alice deletes her account; her token then lists nothing. *)
Lemma deleted_account_afterwards_scenario :
  (wf_db db_scenario /\ In alice_row (users db_scenario)
   /\ deleteUserAccount 1 "secret1" (env_at 1003) db_scenario
      = (Resolved true,
         snd (deleteUserAccount 1 "secret1" (env_at 1003) db_scenario)))
  /\ get_notes (request_of (bearer alice_token) "" no_fields) (env_at 1003)
       (snd (deleteUserAccount 1 "secret1" (env_at 1003) db_scenario))
     = (Resolved {| status := 200; json_body := NoteList [] 0 |},
        snd (deleteUserAccount 1 "secret1" (env_at 1003) db_scenario)).
Proof.
  assert (Hrun : deleteUserAccount 1 "secret1" (env_at 1003) db_scenario
                 = (Resolved true,
                    snd (deleteUserAccount 1 "secret1" (env_at 1003)
                           db_scenario)))
    by reflexivity.
  split; [split; [exact wf_db_scenario | split; [exact alice_row_stored | exact Hrun]]|].
  exact (proj2 (deleted_account_afterwards db_scenario _ alice_row "secret1"
                  (env_at 1003) wf_db_scenario alice_row_stored Hrun)
           (request_of (bearer alice_token) "" no_fields) (env_at 1003)
           alice_claims (alice_authenticated "" no_fields) eq_refl).
Defined.

(** Alice creates a second note at 1010. *)
Lemma created_note_is_listed_scenario :
  wf_db db_scenario
  /\ exists note db1 rows rows1,
      createNote 1 "C" "D" "" (env_at 1010) db_scenario
      = (Resolved (Some note), db1)
      /\ getNotesByUserId 1 (env_at 1011) db_scenario = (Resolved rows, db_scenario)
      /\ getNotesByUserId 1 (env_at 1011) db1 = (Resolved rows1, db1)
      /\ Permutation rows1 (note :: rows).
Proof.
  split; [exact wf_db_scenario|].
  destruct (created_note_is_listed db_scenario 1 "C" "D" "" (env_at 1010)
              (env_at 1011) wf_db_scenario)
    as (note & db1 & rows & rows1 & Hrun & Hbefore & Hafter & Hperm & _).
  exists note, db1, rows, rows1. auto.
Defined.

(** Alice deletes her note. *)
Lemma deleted_note_is_unlisted_scenario :
  (wf_db db_scenario /\ In alice_note (notes db_scenario))
  /\ exists db1,
      deleteNote (Int 1) 1 (env_at 1003) db_scenario = (Resolved true, db1)
      /\ getNoteById (Int 1) 1 (env_at 1004) db1 = (Resolved None, db1).
Proof.
  assert (Hin : In alice_note (notes db_scenario)) by (simpl; now left).
  split; [split; [exact wf_db_scenario | exact Hin]|].
  destruct (deleted_note_is_unlisted db_scenario alice_note (env_at 1003)
              (env_at 1004) wf_db_scenario Hin)
    as (db1 & rows & rows1 & Hrun & _ & _ & _ & Hget).
  exists db1. split; [exact Hrun | exact Hget].
Defined.

(** Alice sends the wrong old password. *)
Lemma put_user_password_answers_scenario :
  (wf_db db_scenario /\ In alice_row (users db_scenario))
  /\ exists db1,
      put_user_password
        (request_of (bearer alice_token) ""
           (password_fields (Some "guess-1") (Some "secret2")))
        (env_at 1003) db_scenario
      = (Resolved {| status := 401;
                     json_body := Error "Current password is incorrect" |}, db1)
      /\ db1 = db_scenario.
Proof.
  split; [split; [exact wf_db_scenario | exact alice_row_stored]|].
  destruct (put_user_password_answers
              (request_of (bearer alice_token) ""
                 (password_fields (Some "guess-1") (Some "secret2")))
              (env_at 1003) db_scenario alice_claims wf_db_scenario
              (alice_authenticated "" _) eq_refl eq_refl
              ltac:(simpl; lia) ltac:(discriminate))
    as [Hstored _].
  destruct (Hstored alice_row alice_row_stored eq_refl) as (db1 & Hrun & Hsame).
  exists db1. split; [exact Hrun | exact (Hsame eq_refl)].
Defined.

(** Alice deletes her account through the route. *)
Lemma delete_user_account_answers_scenario :
  (wf_db db_scenario /\ In alice_row (users db_scenario))
  /\ exists db1,
      delete_user_account
        (request_of (bearer alice_token) "" (account_fields (Some "secret1")))
        (env_at 1003) db_scenario
      = (Resolved {| status := 200;
                     json_body := Message "Account deleted successfully" |}, db1)
      /\ no_such_user db1 1.
Proof.
  split; [split; [exact wf_db_scenario | exact alice_row_stored]|].
  destruct (delete_user_account_answers
              (request_of (bearer alice_token) "" (account_fields (Some "secret1")))
              (env_at 1003) db_scenario alice_claims alice_row wf_db_scenario
              (alice_authenticated "" _) alice_row_stored eq_refl)
    as [_ Hgiven].
  destruct (Hgiven eq_refl) as (db1 & Hrun & _ & Hgone).
  exists db1. split; [exact Hrun | exact (proj1 (Hgone eq_refl))].
Defined.
